(** * Agent builder: the welcome scratchpad tool and the debounced input helper

  A shallow embedding of [tools/welcome.py] and of
  [strands_agents_builder/utils/user_input.py], together with the
  properties of the two components that the specification states.

  Python values are modelled as follows.  A [str] is a [string], one
  [ascii] per character (the code only counts, compares and concatenates
  characters); a [dict] with string keys is a [gmap string _];
  [None]-or-object is an [option]; a raised exception is a value of [exn]
  carried by [outcome]; a duration in seconds is a number of
  milliseconds in [Z].  The file system and the process environment,
  which the code reads and writes through [open], [os.path], [pathlib] and
  [os.environ], are explicit states that every operation threads. *)

From Stdlib Require Import Ascii String.
From stdpp Require Import gmap strings list.

Local Open Scope string_scope.

(** ** Python runtime: characters, exceptions, outcomes *)

Module Py.

Definition LF : ascii := ascii_of_nat 10.
Definition CR : ascii := ascii_of_nat 13.
Definition nl : string := String LF EmptyString.
Definition cr : string := String CR EmptyString.
Definition dq : string := String (ascii_of_nat 34) EmptyString.

(** The exception classes that the two modules raise, catch or let
    through.  [KeyboardInterrupt] and [SystemExit] derive from
    [BaseException] only, so a clause [except Exception] does not catch
    them. *)
Inductive exn : Type :=
| ValueError (msg : string)
| KeyError (key : string)
| OSError (msg : string)
| RuntimeError (msg : string)
| TypeError (msg : string)
| TimeoutError
| EOFError
| KeyboardInterrupt
| SystemExit.

Definition is_Exception (e : exn) : bool :=
  match e with
  | KeyboardInterrupt | SystemExit => false
  | _ => true
  end.

(** [str(e)] *)
Definition str (e : exn) : string :=
  match e with
  | ValueError msg | OSError msg | RuntimeError msg | TypeError msg => msg
  | KeyError key => "'" +:+ key +:+ "'"
  | _ => EmptyString
  end.

Inductive outcome (A : Type) : Type :=
| Return (a : A)
| Raise (e : exn).
Arguments Return {A} a.
Arguments Raise {A} e.

(** Truthiness of an object-or-[None]. *)
Definition present {A : Type} (o : option A) : bool :=
  match o with Some _ => true | None => false end.

(** Truthiness of a [str]: the empty string is falsy. *)
Definition truthy (s : string) : bool :=
  match s with EmptyString => false | _ => true end.

(** Text-mode reading with the default [newline=None]: universal
    newlines, every CR LF and every lone CR comes back as LF.  Text-mode
    writing translates LF to [os.linesep], which is LF itself on the
    POSIX systems this code addresses (its fallback path is under
    [/tmp]), so writing stores the characters unchanged. *)
Fixpoint universal_newlines (s : string) : string :=
  match s with
  | EmptyString => EmptyString
  | String c rest =>
      if Ascii.eqb c CR then
        match rest with
        | String c' rest' =>
            if Ascii.eqb c' LF then String LF (universal_newlines rest')
            else String LF (universal_newlines rest)
        | EmptyString => String LF EmptyString
        end
      else String c (universal_newlines rest)
  end.

Fixpoint has_cr (s : string) : bool :=
  match s with
  | EmptyString => false
  | String c rest => Ascii.eqb c CR || has_cr rest
  end.

End Py.

(** ** The file system *)

Module Fs.
Import Py.

(** [files] maps a path to the text stored there; [locked] holds the
    paths on which [open] fails with a permission error; [dirs] holds the
    directories that exist and [sealed] those under which nothing can be
    created. *)
Record FileSystem : Type := mkFs {
  cwd : string;
  home : string;
  files : gmap string string;
  locked : gset string;
  dirs : gset string;
  sealed : gset string
}.

Definition with_files (fs : FileSystem) (m : gmap string string) : FileSystem :=
  mkFs (cwd fs) (home fs) m (locked fs) (dirs fs) (sealed fs).

Definition with_dirs (fs : FileSystem) (d : gset string) : FileSystem :=
  mkFs (cwd fs) (home fs) (files fs) (locked fs) d (sealed fs).

Definition permission_denied (path : string) : exn :=
  OSError ("[Errno 13] Permission denied: '" +:+ path +:+ "'").

Definition no_such_file (path : string) : exn :=
  OSError ("[Errno 2] No such file or directory: '" +:+ path +:+ "'").

Definition is_a_directory (path : string) : exn :=
  OSError ("[Errno 21] Is a directory: '" +:+ path +:+ "'").

(** [os.path.exists(path)] *)
Definition exists_ (path : string) (fs : FileSystem) : bool :=
  bool_decide (is_Some (files fs !! path)) || bool_decide (path ∈ dirs fs).

(** [with open(path, "w") as f: f.write(content)].  [open] fails on a
    path that may not be written or that is a directory, before it
    touches the file; otherwise it truncates the file and the content is
    written.  A write that fails after the file was truncated (a full
    disk) is not among the failures of [FileSystem]. *)
Definition write_text (path content : string) (fs : FileSystem)
  : FileSystem * outcome unit :=
  if bool_decide (path ∈ locked fs) then (fs, Raise (permission_denied path))
  else if bool_decide (path ∈ dirs fs) then (fs, Raise (is_a_directory path))
  else (with_files fs (<[path := content]> (files fs)), Return tt).

(** [with open(path, "r") as f: f.read()] *)
Definition read_text (path : string) (fs : FileSystem) : outcome string :=
  if bool_decide (path ∈ locked fs) then Raise (permission_denied path)
  else if bool_decide (path ∈ dirs fs) then Raise (is_a_directory path)
  else match files fs !! path with
       | Some c => Return (universal_newlines c)
       | None => Raise (no_such_file path)
       end.

(** [Path(path).mkdir(parents=True, exist_ok=True)]: creates the
    directory or raises; like every [mkdir] it returns [None]. *)
Definition mkdir_parents (path : string) (fs : FileSystem)
  : FileSystem * outcome unit :=
  if bool_decide (path ∈ sealed fs) then (fs, Raise (permission_denied path))
  else (with_dirs fs ({[path]} ∪ dirs fs), Return tt).

End Fs.

(** ** [tools/welcome.py] *)

Module Welcome.
Import Py Fs.

(** [DEFAULT_WELCOME_TEXT], line by line. *)
Definition DEFAULT_WELCOME_TEXT : string :=
  String.concat nl
  ["*.*";
   "*.*";
   "*.*";
   "*welcome to strands agent builder!*";
   "# 🚀 STRANDS AGENTS SDK: Self-Extending AI Tool Building";
   EmptyString;
   "## About Agent Builder";
   "I am the Strands Agent Builder - an AI assistant dedicated to helping you build and extend AI tools using the Strands Agents framework. I'm designed to make the development of AI agents more accessible and powerful.";
   EmptyString;
   "GitHub Repository: https://github.com/strands-agents/agent-builder";
   EmptyString;
   "## SDKs and Tools";
   EmptyString;
   "### 📦 SDK Source";
   "https://github.com/strands-agents/sdk-python";
   EmptyString;
   "### 🧰 Tools Repository";
   "https://github.com/strands-agents/tools";
   EmptyString;
   "## Installation & Updates:";
   EmptyString;
   "### 📦 Installing Strands";
   "```bash";
   "pip install strands-agents strands-agents-tools";
   "```";
   EmptyString;
   "### 🔄 Updating Agent Builder";
   "```bash";
   "pipx install git+https://github.com/strands-agents/agent-builder.git --force";
   "# or";
   "pipx install strands-agent-builder --force";
   "```";
   EmptyString;
   "## Quick Reference Guide:";
   EmptyString;
   "### 1️⃣ Core Imports";
   "```python";
   "from strands import Agent, tool";
   "from strands_tools import load_tool, shell, editor";
   EmptyString;
   "agent = Agent(tools=[load_tool, shell, editor])";
   "```";
   EmptyString;
   "### 2️⃣ Tool Definition Pattern";
   "```python";
   "from strands import tool";
   EmptyString;
   "@tool";
   "def my_tool(param1: str, param2: int = 42) -> dict:";
   ("    " +:+ dq +:+ dq +:+ dq);
   "    Tool description - explain what it does.";
   EmptyString;
   "    Args:";
   "        param1: Description of first parameter";
   "        param2: Description of second parameter";
   EmptyString;
   "    Returns:";
   "        Dictionary with results";
   ("    " +:+ dq +:+ dq +:+ dq);
   "    try:";
   "        # Implementation";
   "        result = do_something(param1, param2)";
   "        return {";
   ("            " +:+ dq +:+ "status" +:+ dq +:+ ": " +:+ dq +:+ "success" +:+ dq +:+ ", ");
   ("            " +:+ dq +:+ "content" +:+ dq +:+ ": [{" +:+ dq +:+ "text" +:+ dq +:+ ": f" +:+ dq +:+ "✅ Result: {result}" +:+ dq +:+ "}]");
   "        }";
   "    except Exception as e:";
   "        return {";
   ("            " +:+ dq +:+ "status" +:+ dq +:+ ": " +:+ dq +:+ "error" +:+ dq +:+ ",");
   ("            " +:+ dq +:+ "content" +:+ dq +:+ ": [{" +:+ dq +:+ "text" +:+ dq +:+ ": f" +:+ dq +:+ "❌ Error: {str(e)}" +:+ dq +:+ "}]");
   "        }";
   "```";
   EmptyString;
   "### 3️⃣ Create & Use Tools Instantly";
   EmptyString;
   "- cwd()/tools/*.py directory is hot-reloaded. I can create tools and use them immediately.";
   ("- agent.tool.load_tool(name=" +:+ dq +:+ "tool_name" +:+ dq +:+ ", path=" +:+ dq +:+ "tool_path" +:+ dq +:+ ") allows to load from different directories.");
   EmptyString;
   "```python";
   "# Create tool";
   ("agent.tool.editor(command=" +:+ dq +:+ "create" +:+ dq +:+ ", path=" +:+ dq +:+ "tools/data_tool.py" +:+ dq +:+ ", file_text=" +:+ dq +:+ "..." +:+ dq +:+ ")");
   EmptyString;
   "# Use immediately - no restart needed";
   ("agent.tool.data_tool(" +:+ dq +:+ "parameter" +:+ dq +:+ ")");
   "```";
   EmptyString;
   "### 4️⃣ Tool Building Process";
   "1. **Identify need** for new capability";
   "2. **Implement** code in tools directory";
   "3. **Use immediately** with agent.tool.tool_name()";
   "4. **Enhance iteratively** without restarts";
   EmptyString;
   "Available built-in tools:";
   "- memory";
   "- file_read";
   "- file_write";
   "- shell";
   "- editor";
   "- http_request";
   "- python_repl";
   "- calculator";
   "- retrieve";
   "- use_aws";
   "- load_tool";
   "- environment";
   "- use_llm";
   "- think";
   "- journal";
   "- image_reader";
   "- generate_image";
   "- nova_reels";
   "- agent_graph";
   "- swarm";
   "- workflow";
   "- slack";
   "- stop";
   "- speak";
   "- store_in_kb";
   "- strand";
   "- welcome";
   EmptyString;
   "I'm the Strands Agent Builder, your AI assistant for creating and extending AI tools! Let's build something amazing together.";
   EmptyString;
   "Type *exit* to quit."].

(** [ToolUse] and [ToolResult] of [strands.types.tools]; the tool input
    is the JSON object of the request. *)
Record ToolUse : Type := mkToolUse {
  tu_toolUseId : string;
  tu_name : string;
  tu_input : gmap string string
}.

Inductive Status : Type := success | error.

Record ContentBlock : Type := mkText { text : string }.

Record ToolResult : Type := mkToolResult {
  toolUseId : string;
  status : Status;
  content : list ContentBlock
}.

(** [f"{Path.cwd()}/.welcome"], where the working directory exists;
    [welcome_call] below covers the process whose working directory has
    been removed, in which [Path.cwd()] raises. *)
Definition welcome_path (fs : FileSystem) : string := cwd fs +:+ "/.welcome".

(** The body of the [try] block for a given [action]: it either returns
    a result or raises, and threads the file system. *)
Definition welcome_try (tool_use_id action : string)
    (tool_input : gmap string string) (fs : FileSystem)
  : FileSystem * outcome ToolResult :=
  if String.eqb action "edit" then
    match tool_input !! "content" with
    | None => (fs, Raise (ValueError "content is required for edit action"))
    | Some content =>
        match write_text (welcome_path fs) content fs with
        | (fs', Raise e) => (fs', Raise e)
        | (fs', Return _) =>
            (fs', Return (mkToolResult tool_use_id success
                            [mkText "Welcome text updated successfully"]))
        end
    end
  else if String.eqb action "view" then
    if exists_ (welcome_path fs) fs then
      match read_text (welcome_path fs) fs with
      | Raise e => (fs, Raise e)
      | Return content =>
          (fs, Return (mkToolResult tool_use_id success
                         [mkText ("*.*" +:+ nl +:+ content)]))
      end
    else
      (fs, Return (mkToolResult tool_use_id success
                     [mkText ("*welcome to strands!*" +:+ nl +:+ DEFAULT_WELCOME_TEXT)]))
  else
    (fs, Return (mkToolResult tool_use_id error
                   [mkText ("Unknown action: " +:+ action)])).

(** [welcome(tool)].  The lookup of [action] precedes the [try], so a
    request without it raises [KeyError] to the caller; inside the [try]
    every [Exception] becomes an error result. *)
Definition welcome (tool : ToolUse) (fs : FileSystem)
  : FileSystem * outcome ToolResult :=
  let tool_use_id := tu_toolUseId tool in
  let tool_input := tu_input tool in
  match tool_input !! "action" with
  | None => (fs, Raise (KeyError "action"))
  | Some action =>
      match welcome_try tool_use_id action tool_input fs with
      | (fs', Return r) => (fs', Return r)
      | (fs', Raise e) =>
          if is_Exception e then
            (fs', Return (mkToolResult tool_use_id error
                            [mkText ("Error: " +:+ str e)]))
          else (fs', Raise e)
      end
  end.

(** [welcome(tool)] in a process whose working directory may have been
    removed.  [Path.cwd()] is evaluated at line 177, after the two
    lookups in [tool], before the lookup of [action] and before the
    [try]: without a working directory it raises [FileNotFoundError] to
    the caller, whatever the request.  [welcome] above is the function
    from the point where [Path.cwd()] has returned. *)
Definition no_working_directory : exn :=
  OSError "[Errno 2] No such file or directory".

Definition welcome_call (cwd_exists : bool) (tool : ToolUse)
    (fs : FileSystem) : FileSystem * outcome ToolResult :=
  if cwd_exists then welcome tool fs
  else (fs, Raise no_working_directory).

(** Requests as the agent framework builds them. *)
Definition view_request (id : string) : ToolUse :=
  mkToolUse id "welcome" {[ "action" := "view" ]}.

Definition edit_request (id content : string) : ToolUse :=
  mkToolUse id "welcome" (<[ "content" := content ]> {[ "action" := "edit" ]}).

Definition result_text (r : outcome ToolResult) : option string :=
  match r with
  | Return (mkToolResult _ _ [mkText t]) => Some t
  | _ => None
  end.

Definition result_status (r : outcome ToolResult) : option Status :=
  match r with
  | Return res => Some (status res)
  | Raise _ => None
  end.

End Welcome.

(** ** [strands_agents_builder/utils/user_input.py] *)

Module UserInput.
Import Py Fs.

(** *** The history file *)

Definition HISTORY_VARIABLE : string := "STRANDS_INPUT_HISTORY_PATH".
Definition FALLBACK_HISTORY : string := "/tmp/input_history".

(** [Path.home() / ".strands"] and [... / "input_history"] *)
Definition strands_dir (fs : FileSystem) : string := home fs +:+ "/.strands".
Definition home_path (fs : FileSystem) : string :=
  strands_dir fs +:+ "/input_history".

(** [get_history_file_path()], with [os.environ] as a map.  The second
    disjunct of the [if] is the value of [mkdir], which is [None]: once
    the directory had to be created the condition is false. *)
Definition get_history_file_path (environ : gmap string string)
    (fs : FileSystem) : FileSystem * outcome string :=
  match environ !! HISTORY_VARIABLE with
  | Some history_path =>
      if truthy history_path then (fs, Return history_path)
      else
        if exists_ (strands_dir fs) fs then (fs, Return (home_path fs))
        else match mkdir_parents (strands_dir fs) fs with
             | (fs', Raise e) => (fs', Raise e)
             | (fs', Return _) => (fs', Return FALLBACK_HISTORY)
             end
  | None =>
      if exists_ (strands_dir fs) fs then (fs, Return (home_path fs))
      else match mkdir_parents (strands_dir fs) fs with
           | (fs', Raise e) => (fs', Raise e)
           | (fs', Return _) => (fs', Return FALLBACK_HISTORY)
           end
  end.

(** *** The prompt buffer, the advisor and the console *)

(** The two attributes of the prompt's buffer that the code touches. *)
Record Buffer : Type := mkBuffer {
  text : string;
  cursor_position : Z
}.

(** One call of the assistant agent in its worker thread: how long it
    runs (milliseconds), what it returns or raises, and what the code
    running inside the call (the parent's tools and callback handler,
    which can reach the module-level prompt session) does to the shared
    buffer in the meantime. *)
Record Run : Type := mkRun {
  took : Z;
  answer : outcome string;
  meanwhile : Buffer -> Buffer
}.

(** The agent handed to [get_user_input_async], as far as the typing
    assistant uses it: the reply to a prompt. *)
Record Agent : Type := mkAgent {
  respond : string -> Run
}.

(** What [print] and [pprint] put on the console.  [Suggestion] is
    what [pprint] prints when it is called as its signature allows. *)
Inductive Output : Type :=
| Thinking                       (* the indicator, ended by a carriage return *)
| ClearIndicator                 (* CR, ten blanks, CR *)
| Suggestion (s : string)        (* pprint(suggestion_text) *)
| Printed (e : exn)              (* print(e) *)
| AssistantError (e : exn).      (* "(Assistant error: ...)" *)

Definition is_suggestion (o : Output) : bool :=
  match o with Suggestion _ => true | _ => false end.

(** [future.result(timeout=10.0)], in milliseconds. *)
Definition RESULT_TIMEOUT : Z := 10000.

(** The prompt sent to the assistant agent. *)
Definition assistant_prompt (text : string) : string :=
  "The user is typing: '" +:+ text +:+ "'. What is your thought on it?".

(** [future.result(timeout)]: the worker's answer once it is there, or
    [TimeoutError] when the timeout comes first; with the time waited. *)
Definition future_result (r : Run) (timeout : Z) : Z * outcome string :=
  if (took r <=? timeout)%Z then (took r, answer r)
  else (timeout, Raise TimeoutError).

(** Leaving [with ThreadPoolExecutor() as executor]: [__exit__] calls
    [shutdown(wait=True)], which joins the worker thread, so the block
    is left when the worker has finished and not before. *)
Definition executor_exit (r : Run) (waited : Z) : Z := Z.max waited (took r).

(** [rich.pretty.pprint(obj, end=...)].  [pprint] takes the object and
    the keywords [console], [indent_guides], [max_length], [max_string],
    [max_depth] and [expand_all]; given the keyword [end] it raises
    [TypeError] before anything is printed. *)
Definition pprint (obj : string) (end_ : option string)
  : outcome (list Output) :=
  match end_ with
  | Some _ =>
      Raise (TypeError "pprint() got an unexpected keyword argument 'end'")
  | None => Return [Suggestion obj]
  end.

(** The result of one [launch_assistant]: the buffer afterwards, what
    was printed, the texts submitted to the worker, for how long the
    calling thread was held, and the exception that left the coroutine,
    if any. *)
Record Launch : Type := mkLaunch {
  l_buffer : option Buffer;
  l_console : list Output;
  l_asked : list string;
  l_held : Z;
  l_raised : option exn
}.

Definition nothing_done (buffer : option Buffer) : Launch :=
  mkLaunch buffer [] [] 0 None.

Definition launch_assistant (agent : option Agent) (text_ : string)
    (buffer : option Buffer) : Launch :=
  match agent with
  | None => nothing_done buffer
  | Some ag =>
      match buffer with
      | None => nothing_done buffer
      | Some b =>
          let current_input := text b in
          let cursor_position_ := cursor_position b in
          let r := respond ag (assistant_prompt text_) in
          let '(waited, res) := future_result r RESULT_TIMEOUT in
          (* the body of the [with] block after [future.result]: the
             indicator is cleared, then [pprint(suggestion_text, end=CR)] *)
          let '(shown, body) :=
            match res with
            | Return suggestion_text =>
                if truthy suggestion_text
                   && Nat.ltb 0 (String.length suggestion_text)
                then match pprint suggestion_text (Some cr) with
                     | Return out => (ClearIndicator :: out, Return tt)
                     | Raise e => ([ClearIndicator], Raise e)
                     end
                else ([], Return tt)
            | Raise e => ([], Raise e)
            end in
          let held := executor_exit r waited in
          let b1 := meanwhile r b in
          (* except Exception as e: print(e) *)
          let '(printed, raised) :=
            match body with
            | Return _ => ([], None)
            | Raise e => if is_Exception e then ([Printed e], None)
                         else ([], Some e)
            end in
          (* finally: restore the two attributes *)
          let b2 := mkBuffer current_input (cursor_position b1) in
          let b3 := mkBuffer (text b2) cursor_position_ in
          mkLaunch (Some b3) (Thinking :: shown ++ printed) [text_] held raised
      end
  end.

(** The part of [trigger_assistant_after_pause] that runs once the sleep
    is over. *)
Definition after_pause (agent : option Agent) (text_ : string)
    (buffer : option Buffer) : Launch :=
  match buffer with
  | None => nothing_done buffer
  | Some b =>
      if truthy (text b) then
        let l := launch_assistant agent text_ buffer in
        match l_raised l with
        | Some e =>
            if is_Exception e
            then mkLaunch (l_buffer l) (l_console l ++ [AssistantError e])
                          (l_asked l) (l_held l) None
            else l
        | None => l
        end
      else nothing_done buffer
  end.

(** *** Debounce timers and the event loop *)

(** A task made by [asyncio.create_task(trigger_assistant_after_pause(...))]:
    the text it was started for, the time at which its sleep ends, and
    whether it still sleeps, was cancelled, or has run. *)
Inductive TaskState : Type := Sleeping | Cancelled | Finished.

Record Task : Type := mkTask {
  t_text : string;
  t_wakes : Z;
  t_state : TaskState
}.

Definition sleeping (t : Task) : bool :=
  match t_state t with Sleeping => true | _ => false end.

(** [task.done()] *)
Definition done_ (t : Task) : bool := negb (sleeping t).

(** [task.cancel()] *)
Definition cancel (t : Task) : Task := mkTask (t_text t) (t_wakes t) Cancelled.

Definition finish (t : Task) : Task := mkTask (t_text t) (t_wakes t) Finished.

(** One call of [get_user_input_async] in progress.  [typing_timer] and
    [current_text] are the two [nonlocal] variables; a timer is the
    index of its task in [tasks], which lists the tasks of this call in
    the order of their creation.  [buffer] is the one buffer object that
    the prompt, the handler and every task share.  The remaining fields
    record what happened: the clock, the console, the tasks whose sleep
    ran out, the texts the advisor was asked about, the time for which
    advisory calls held the event loop's thread, and the exception that
    stopped the loop, if one did. *)
Record Session : Type := mkSession {
  typing_timer : option nat;
  current_text : string;
  tasks : list Task;
  buffer : Buffer;
  now : Z;
  console : list Output;
  fired : list nat;
  advised : list string;
  held : Z;
  crashed : option exn
}.

Definition min_text_length : nat := 5.

(** [if typing_timer and not typing_timer.done(): typing_timer.cancel()] *)
Definition cancel_pending (timer : option nat) (ts : list Task) : list Task :=
  match timer with
  | None => ts
  | Some i =>
      match ts !! i with
      | Some t => if negb (done_ t) then <[i := cancel t]> ts else ts
      | None => ts
      end
  end.

(** [handle_text_change(buffer)], called by the buffer on itself. *)
Definition handle_text_change (agent : option Agent) (typing_timeout : Z)
    (s : Session) : Session :=
  let ts := cancel_pending (typing_timer s) (tasks s) in
  if present agent
     && Nat.ltb min_text_length (String.length (text (buffer s)))
     && negb (String.eqb (text (buffer s)) (current_text s))
  then
    mkSession (Some (length ts)) (text (buffer s))
              (ts ++ [mkTask (text (buffer s)) (now s + typing_timeout) Sleeping])
              (buffer s) (now s) (console s) (fired s) (advised s) (held s)
              (crashed s)
  else
    mkSession (typing_timer s) (current_text s) ts
              (buffer s) (now s) (console s) (fired s) (advised s) (held s)
              (crashed s).

(** A sleeping task whose time has come runs [after_pause] on the shared
    buffer and is finished. *)
Definition wake (agent : option Agent) (i : nat) (t : Task) (s : Session)
  : Session :=
  let l := after_pause agent (t_text t) (Some (buffer s)) in
  mkSession (typing_timer s) (current_text s) (<[i := finish t]> (tasks s))
            (default (buffer s) (l_buffer l)) (now s)
            (console s ++ l_console l) (fired s ++ [i]) (advised s ++ l_asked l)
            (held s + l_held l) (l_raised l).

(** The loop runs the tasks that are due, oldest first, and stops at an
    exception that is not an [Exception]. *)
Fixpoint run_due (agent : option Agent) (n i : nat) (s : Session) : Session :=
  match n with
  | O => s
  | S n' =>
      match crashed s with
      | Some _ => s
      | None =>
          match tasks s !! i with
          | Some t =>
              if sleeping t && (t_wakes t <=? now s)%Z
              then run_due agent n' (S i) (wake agent i t s)
              else run_due agent n' (S i) s
          | None => s
          end
      end
  end.

Definition set_now (s : Session) (t : Z) : Session :=
  mkSession (typing_timer s) (current_text s) (tasks s) (buffer s) t
            (console s) (fired s) (advised s) (held s) (crashed s).

Definition set_buffer (s : Session) (b : Buffer) : Session :=
  mkSession (typing_timer s) (current_text s) (tasks s) b (now s)
            (console s) (fired s) (advised s) (held s) (crashed s).

(** [dt] milliseconds pass in the event loop. *)
Definition elapse (agent : option Agent) (dt : Z) (s : Session) : Session :=
  match crashed s with
  | Some _ => s
  | None =>
      let s1 := set_now s (now s + dt) in
      run_due agent (length (tasks s1)) 0 s1
  end.

(** A text-change event in one call taken on its own: after [dt]
    milliseconds a keystroke leaves the buffer as [b], and the buffer
    calls the handler of this call, which is attached only when an agent
    was given.  The handlers that earlier calls left on the buffer are
    called in [loop_text_changed] below. *)
Definition text_changed (agent : option Agent) (typing_timeout : Z)
    (ev : Z * Buffer) (s : Session) : Session :=
  let s1 := elapse agent ev.1 s in
  match crashed s1 with
  | Some _ => s1
  | None =>
      let s2 := set_buffer s1 ev.2 in
      if present agent
      then handle_text_change agent typing_timeout s2
      else s2
  end.

Definition typing (agent : option Agent) (typing_timeout : Z)
    (script : list (Z * Buffer)) (s : Session) : Session :=
  foldl (fun s ev => text_changed agent typing_timeout ev s) s script.

(** How the prompt ends. *)
Inductive Ending : Type :=
| Submit            (* the user accepts the line *)
| Interrupt         (* KeyboardInterrupt *)
| EndOfInput.       (* EOFError *)

(** The call starts in a process that has not prompted before: no task
    in the loop, no handler on the buffer, the default in the buffer.
    [attach] below starts a call in any state of a process. *)
Definition start (default_ : string) : Session :=
  mkSession None EmptyString []
            (mkBuffer default_ (Z.of_nat (String.length default_)))
            0 [] [] [] 0 None.

(** [get_user_input_async(prompt, default, agent, typing_timeout)], as
    the first prompt of a process, against a user who types [script] and
    ends the prompt [last] milliseconds after the last keystroke; a call
    in any state of a process is [prompt_call] below.  The result is
    paired with the session as the call leaves it.  [KeyboardInterrupt]
    and [SystemExit] raised in a task are re-raised by the event loop,
    so the call does not resolve when the loop has stopped on one. *)
Definition get_user_input_async (prompt default_ : string)
    (agent : option Agent) (typing_timeout : Z)
    (script : list (Z * Buffer)) (last : Z) (ending : Ending)
  : outcome string * Session :=
  let s := elapse agent last (typing agent typing_timeout script (start default_)) in
  match crashed s with
  | Some e => (Raise e, s)
  | None =>
      match ending with
      | Submit =>
          let response := text (buffer s) in
          let s' := mkSession (typing_timer s) (current_text s)
                              (cancel_pending (typing_timer s) (tasks s))
                              (buffer s) (now s) (console s) (fired s)
                              (advised s) (held s) (crashed s) in
          (Return response, s')
      | Interrupt | EndOfInput => (Return default_, s)
      end
  end.

(** The timers that can still fire. *)
Definition active (s : Session) : list Task := filter (fun t => sleeping t = true) (tasks s).

(** *** Session states and invariants *)

Section Invariants.
Variable agent : option Agent.
Variable typing_timeout : Z.

(** The states of a session: it starts, time passes, the user changes
    the buffer, the buffer calls the handler. *)
Inductive reachable : Session -> Prop :=
| reach_start default_ : reachable (start default_)
| reach_elapse s dt : reachable s -> reachable (elapse agent dt s)
| reach_keystroke s b : reachable s -> reachable (set_buffer s b)
| reach_handler s :
    reachable s -> reachable (handle_text_change agent typing_timeout s).

(** Every task that still sleeps is the one [typing_timer] names. *)
Definition single_timer (s : Session) : Prop :=
  forall i t, tasks s !! i = Some t -> sleeping t = true ->
              typing_timer s = Some i.

(** No task sleeps. *)
Definition quiet (ts : list Task) : Prop :=
  forall i t, ts !! i = Some t -> sleeping t = false.

(** Between two keystrokes of a burst: the loop is intact, the
    records of fired timers and of advisor calls are still [f] and
    [a], and a sleeping timer was started at the present time. *)
Definition armed (f : list nat) (a : list string) (s : Session) : Prop :=
  crashed s = None /\ fired s = f /\ advised s = a /\ single_timer s
  /\ (forall i t, tasks s !! i = Some t -> sleeping t = true ->
         t_wakes t = (now s + typing_timeout)%Z)
  /\ (agent = None -> tasks s = []).
End Invariants.

(** *** The synchronous wrapper *)

(** The default of the parameter [typing_timeout], 2.5 seconds. *)
Definition DEFAULT_TYPING_TIMEOUT : Z := 2500.

(** [get_user_input(prompt, default, agent)]: it runs
    [get_user_input_async(prompt, default, agent)], hence with the
    default threshold, on the event loop until it completes, and returns
    [str(result)], which for a [str] is the result itself.  This is the
    first prompt of a process; the loop, obtained with [get_event_loop],
    is the same in later calls, which are [input_call] below. *)
Definition get_user_input (prompt default_ : string) (agent : option Agent)
    (script : list (Z * Buffer)) (last : Z) (ending : Ending)
  : outcome string * Session :=
  match get_user_input_async prompt default_ agent DEFAULT_TYPING_TIMEOUT
          script last ending with
  | (Return result, s) => (Return result, s)
  | (Raise e, s) => (Raise e, s)
  end.

(** The buffer as the prompt seeds it with the default, and as the
    keystrokes of a script leave it. *)
Definition seeded (default_ : string) : Buffer :=
  mkBuffer default_ (Z.of_nat (String.length default_)).

Definition typed (b0 : Buffer) (script : list (Z * Buffer)) : Buffer :=
  foldl (fun _ ev => ev.2) b0 script.

(** The history variable is unset, or set to the empty string. *)
Definition no_override (environ : gmap string string) : Prop :=
  environ !! HISTORY_VARIABLE = None
  \/ environ !! HISTORY_VARIABLE = Some EmptyString.

(** The condition under which [handle_text_change] starts a timer. *)
Definition triggers (agent : option Agent) (s : Session) : bool :=
  present agent
  && Nat.ltb min_text_length (String.length (text (buffer s)))
  && negb (String.eqb (text (buffer s)) (current_text s)).

(** *** Several prompts in one process *)

(** The definitions above follow one call of [get_user_input_async]
    with its own handler and its own tasks, which is all there is in
    the first prompt of a process.  The prompt session is a module-level
    object, though, and so are its buffer and, under [get_user_input],
    the event loop: a call adds its [handle_text_change] to the buffer's
    [on_text_changed] and nothing removes it, and a task that a call
    leaves pending stays in the loop.  What follows models the process
    across calls. *)

(** What the [handle_text_change] of one call closes over: the agent
    and the threshold of the call, and its two [nonlocal] variables. *)
Record Closure : Type := mkClosure {
  c_agent : option Agent;
  c_timeout : Z;
  c_timer : option nat;
  c_text : string
}.

(** The process: the handlers attached to the buffer, in the order of
    their attachment; for every task of the loop the handler whose call
    created it; and the loop with the shared buffer, the clock, the
    console and the records, a [Session] whose two [nonlocal] fields are
    left unused. *)
Record Process : Type := mkProcess {
  handlers : list Closure;
  owners : list nat;
  loop : Session
}.

Definition detach (s : Session) : Session :=
  mkSession None EmptyString (tasks s) (buffer s) (now s) (console s)
            (fired s) (advised s) (held s) (crashed s).

Definition with_closure (c : Closure) (s : Session) : Session :=
  mkSession (c_timer c) (c_text c) (tasks s) (buffer s) (now s) (console s)
            (fired s) (advised s) (held s) (crashed s).

(** The buffer calls the handler attached as number [k]: the handler
    runs on its own variables and on the shared loop, and a task it
    creates belongs to it. *)
Definition call_handler (k : nat) (c : Closure) (p : Process) : Process :=
  let s := with_closure c (loop p) in
  let s' := handle_text_change (c_agent c) (c_timeout c) s in
  mkProcess
    (<[k := mkClosure (c_agent c) (c_timeout c)
                      (typing_timer s') (current_text s')]> (handlers p))
    (owners p ++ replicate (length (tasks s') - length (tasks s)) k)
    (detach s').

(** [on_text_changed.fire()]: every attached handler, oldest first. *)
Fixpoint call_handlers (n k : nat) (p : Process) : Process :=
  match n with
  | O => p
  | S n' =>
      match handlers p !! k with
      | Some c => call_handlers n' (S k) (call_handler k c p)
      | None => p
      end
  end.

Definition on_text_changed (p : Process) : Process :=
  call_handlers (length (handlers p)) 0 p.

(** The agent that a task's [launch_assistant] closes over. *)
Definition task_agent (p : Process) (i : nat) : option Agent :=
  match owners p !! i with
  | Some k =>
      match handlers p !! k with
      | Some c => c_agent c
      | None => None
      end
  | None => None
  end.

(** The loop runs the tasks that are due, in the order of their
    creation, which under one threshold is the order of their
    deadlines. *)
Fixpoint loop_run_due (n i : nat) (p : Process) : Process :=
  match n with
  | O => p
  | S n' =>
      match crashed (loop p) with
      | Some _ => p
      | None =>
          match tasks (loop p) !! i with
          | Some t =>
              if sleeping t && (t_wakes t <=? now (loop p))%Z
              then loop_run_due n' (S i)
                     (mkProcess (handlers p) (owners p)
                                (wake (task_agent p i) i t (loop p)))
              else loop_run_due n' (S i) p
          | None => p
          end
      end
  end.

(** [dt] milliseconds pass while the loop runs. *)
Definition loop_elapse (dt : Z) (p : Process) : Process :=
  match crashed (loop p) with
  | Some _ => p
  | None =>
      let p1 := mkProcess (handlers p) (owners p)
                          (set_now (loop p) (now (loop p) + dt)) in
      loop_run_due (length (tasks (loop p1))) 0 p1
  end.

(** [gap] milliseconds pass between two calls of [get_user_input],
    while the loop does not run: the clock moves and no task does. *)
Definition idle (gap : Z) (p : Process) : Process :=
  mkProcess (handlers p) (owners p) (set_now (loop p) (now (loop p) + gap)).

(** A keystroke leaves the buffer as [b], and the buffer calls its
    handlers. *)
Definition with_buffer (b : Buffer) (p : Process) : Process :=
  mkProcess (handlers p) (owners p) (set_buffer (loop p) b).

Definition buffer_changed (b : Buffer) (p : Process) : Process :=
  on_text_changed (with_buffer b p).

(** A text-change event: the keystroke comes after [dt] milliseconds. *)
Definition loop_text_changed (ev : Z * Buffer) (p : Process) : Process :=
  let p1 := loop_elapse ev.1 p in
  match crashed (loop p1) with
  | Some _ => p1
  | None => buffer_changed ev.2 p1
  end.

Definition loop_typing (script : list (Z * Buffer)) (p : Process) : Process :=
  foldl (fun p ev => loop_text_changed ev p) p script.

(** A process in which no prompt has run yet. *)
Definition fresh : Process := mkProcess [] [] (start EmptyString).

(** The beginning of a call: the handler is created and, when an agent
    was given, added to the buffer (line 175); then the prompt starts
    and seeds the buffer with the default. *)
Definition attach (agent : option Agent) (typing_timeout : Z)
    (default_ : string) (p : Process) : Process :=
  mkProcess
    (handlers p ++ (if present agent
                    then [mkClosure agent typing_timeout None EmptyString]
                    else []))
    (owners p)
    (set_buffer (loop p) (seeded default_)).

(** [if typing_timer and not typing_timer.done(): typing_timer.cancel()]
    after the prompt, for the call whose handler would be number [k]. *)
Definition cancel_own_timer (k : nat) (p : Process) : Process :=
  let typing_timer_ :=
    match handlers p !! k with
    | Some c => c_timer c
    | None => None
    end in
  let s := loop p in
  mkProcess (handlers p) (owners p)
    (mkSession None EmptyString
       (cancel_pending typing_timer_ (tasks s))
       (buffer s) (now s) (console s) (fired s) (advised s)
       (held s) (crashed s)).

(** [get_user_input_async(prompt, default, agent, typing_timeout)] in
    the process [p], against a user who types [script] and ends the
    prompt [last] milliseconds after the last keystroke.  The
    [typing_timer] that submission cancels is the one of this call's
    handler; a call without an agent has none. *)
Definition prompt_call (prompt default_ : string) (agent : option Agent)
    (typing_timeout : Z) (script : list (Z * Buffer)) (last : Z)
    (ending : Ending) (p : Process) : outcome string * Process :=
  let k := length (handlers p) in
  let p1 := loop_elapse last
              (loop_typing script (attach agent typing_timeout default_ p)) in
  match crashed (loop p1) with
  | Some e => (Raise e, p1)
  | None =>
      match ending with
      | Submit => (Return (text (buffer (loop p1))), cancel_own_timer k p1)
      | Interrupt | EndOfInput => (Return default_, p1)
      end
  end.

(** [get_user_input(prompt, default, agent)] in the process [p]. *)
Definition input_call (prompt default_ : string) (agent : option Agent)
    (script : list (Z * Buffer)) (last : Z) (ending : Ending) (p : Process)
  : outcome string * Process :=
  match prompt_call prompt default_ agent DEFAULT_TYPING_TIMEOUT
          script last ending p with
  | (Return result, p') => (Return result, p')
  | (Raise e, p') => (Raise e, p')
  end.

(** Whether the handler with the closure [c] starts a timer when the
    buffer calls it in [p]. *)
Definition triggering (p : Process) (c : Closure) : bool :=
  triggers (c_agent c) (with_closure c (loop p)).

(** What an attached handler works with for good: its agent and its
    threshold. *)
Definition closure_kind (c : Closure) : option Agent * Z :=
  (c_agent c, c_timeout c).

(** The task that the handler with the closure [c] creates in [p]. *)
Definition new_task (p : Process) (c : Closure) : Task :=
  mkTask (text (buffer (loop p))) (now (loop p) + c_timeout c) Sleeping.

(** The states of a process: prompts follow one another, each with or
    without an agent, with idle time in between. *)
Inductive in_process : Process -> Prop :=
| proc_fresh : in_process fresh
| proc_idle p gap : in_process p -> in_process (idle gap p)
| proc_attach p agent typing_timeout default_ :
    in_process p -> in_process (attach agent typing_timeout default_ p)
| proc_elapse p dt : in_process p -> in_process (loop_elapse dt p)
| proc_keystroke p b : in_process p -> in_process (buffer_changed b p)
| proc_submit p k : in_process p -> in_process (cancel_own_timer k p).

(** Every task of the loop has an owner; a task that sleeps is the
    timer of the handler that owns it; and the timer of a handler is a
    task that the handler owns. *)
Definition owned (p : Process) : Prop :=
  length (owners p) = length (tasks (loop p))
  /\ (forall i t, tasks (loop p) !! i = Some t -> sleeping t = true ->
        exists k c, owners p !! i = Some k /\ handlers p !! k = Some c
                    /\ c_timer c = Some i)
  /\ (forall k c i, handlers p !! k = Some c -> c_timer c = Some i ->
        owners p !! i = Some k).

(** While the buffer calls its handlers: those before number [k] have
    been called since [p0]. *)
Definition handled (p0 : Process) (k : nat) (p : Process) : Prop :=
  owned p
  /\ buffer (loop p) = buffer (loop p0)
  /\ length (handlers p) = length (handlers p0)
  /\ (forall j, (k <= j)%nat -> handlers p !! j = handlers p0 !! j)
  /\ length (tasks (loop p))
     = (length (tasks (loop p0))
        + length (filter (fun c => triggering p0 c = true)
                    (take k (handlers p0))))%nat
  /\ (forall i t, tasks (loop p) !! i = Some t ->
                  (length (tasks (loop p0)) <= i)%nat ->
                  sleeping t = true
                  /\ exists k', (k' < k)%nat /\ owners p !! i = Some k')
  /\ (forall i t, tasks (loop p) !! i = Some t ->
                  (i < length (tasks (loop p0)))%nat -> sleeping t = true ->
                  exists j, (k <= j)%nat /\ owners p !! i = Some j).

(** The process [p] in its first prompt and the single call [s] show
    the same loop, and the one handler, if there is one, holds the two
    variables of the call. *)
Definition mirrors (agent : option Agent) (typing_timeout : Z)
    (p : Process) (s : Session) : Prop :=
  loop p = detach s
  /\ owners p = replicate (length (tasks s)) 0
  /\ handlers p =
      (if present agent
       then [mkClosure agent typing_timeout (typing_timer s) (current_text s)]
       else [])
  /\ (present agent = false -> tasks s = []).

End UserInput.

(** ** Concrete inputs *)

Module Examples.
Import Py Fs Welcome UserInput.

(** A working directory without a [.welcome] file. *)
Definition fresh_fs : FileSystem :=
  mkFs "/work" "/home/dev" ∅ ∅ {[ "/home/dev/.strands" ]} ∅.

(** The same machine before [~/.strands] exists. *)
Definition first_run_fs : FileSystem := mkFs "/work" "/home/dev" ∅ ∅ ∅ ∅.

Definition bogus_request : ToolUse :=
  mkToolUse "tooluse_3" "welcome" {[ "action" := "bogus" ]}.

Definition edit_without_content : ToolUse :=
  mkToolUse "tooluse_4" "welcome" {[ "action" := "edit" ]}.

(** An advisor that answers at once, one that needs a minute, and one
    that fails; each of them also scribbles on the buffer. *)
Definition scribble (b : Buffer) : Buffer := mkBuffer "scribbled" 0.

Definition quick_agent : Agent :=
  mkAgent (fun _ => mkRun 800 (Return "maybe add a subject") scribble).

Definition slow_agent : Agent :=
  mkAgent (fun _ => mkRun 60000 (Return "too late") scribble).

Definition failing_agent : Agent :=
  mkAgent (fun _ => mkRun 300 (Raise (RuntimeError "model unavailable")) scribble).

Definition hello : Buffer := mkBuffer "hello" 5.
Definition hello_w : Buffer := mkBuffer "hello w" 7.
Definition hello_world : Buffer := mkBuffer "hello world" 11.

(** A first keystroke after four seconds, then two more 100 ms apart. *)
Definition first_key : Z * Buffer := (4000%Z, hello).
Definition burst : list (Z * Buffer) := [(100%Z, hello_w); (100%Z, hello_world)].

Definition after_burst : Session :=
  typing (Some quick_agent) 2500 burst
    (text_changed (Some quick_agent) 2500 first_key (start EmptyString)).

End Examples.

(** ** Further concrete inputs *)

Module Scenarios.
Import Py Fs Welcome UserInput Examples.

(** A working directory whose [.welcome] exists and cannot be opened. *)
Definition locked_fs : FileSystem :=
  mkFs "/work" "/home/dev" {[ "/work/.welcome" := "old notes" ]}
       {[ "/work/.welcome" ]} {[ "/home/dev/.strands" ]} ∅.

(** A home directory in which [.strands] is absent and cannot be made. *)
Definition sealed_fs : FileSystem :=
  mkFs "/work" "/home/dev" ∅ ∅ ∅ {[ "/home/dev/.strands" ]}.

(** A session in which [hello world] has just been typed. *)
Definition typed_hello : Session :=
  set_buffer (start EmptyString) hello_world.

(** The user types [hello world] and then waits for three seconds. *)
Definition after_pause_state : Session :=
  elapse (Some quick_agent) 3000
    (text_changed (Some quick_agent) 2500 (100%Z, hello_world)
       (start EmptyString)).

(** A process after a first prompt with an agent, in which
    [hello world] was typed and submitted, and one second later. *)
Definition after_first_prompt : Process :=
  idle 1000
    (prompt_call "> " EmptyString (Some quick_agent) 2500
       [(100%Z, hello_world)] 100 Submit fresh).2.

(** The second prompt, with the same agent, after one keystroke. *)
Definition second_prompt : Process :=
  loop_typing [(100%Z, hello_w)]
    (attach (Some quick_agent) 2500 EmptyString after_first_prompt).

(** A second prompt without an agent, after one keystroke. *)
Definition second_prompt_without_agent : Process :=
  loop_typing [(100%Z, hello_w)]
    (attach None 2500 EmptyString after_first_prompt).

(** A process after a first prompt that was interrupted 100 ms after
    [hello world] was typed. *)
Definition after_interrupt : Process :=
  (prompt_call "> " EmptyString (Some quick_agent) 2500
     [(100%Z, hello_world)] 100 Interrupt fresh).2.

End Scenarios.

(** * Properties of the welcome tool *)

Section WelcomeProperties.
Import Py Fs Welcome Examples.

Implicit Types (fs : FileSystem) (tool : ToolUse) (X : string).

Lemma universal_newlines_no_cr X :
  has_cr X = false → universal_newlines X = X.
Proof.
  induction X as [|c rest IH]; [done|].
  simpl. destruct (Ascii.eqb c CR); [done|].
  simpl. intros H. by rewrite IH.
Qed.

Lemma edit_request_action id X :
  tu_input (edit_request id X) !! "action" = Some "edit".
Proof. unfold edit_request; simpl. by rewrite lookup_insert_ne, lookup_singleton_eq. Qed.

Lemma edit_request_content id X :
  tu_input (edit_request id X) !! "content" = Some X.
Proof. unfold edit_request; simpl. by rewrite lookup_insert_eq. Qed.

Lemma view_request_action id :
  tu_input (view_request id) !! "action" = Some "view".
Proof. unfold view_request; simpl. by rewrite lookup_singleton_eq. Qed.

(** An edit on a writable path stores the content under [.welcome] and
    reports success. *)
Lemma welcome_edit_writes fs id X :
  welcome_path fs ∉ locked fs → welcome_path fs ∉ dirs fs →
  welcome (edit_request id X) fs =
    (with_files fs (<[welcome_path fs := X]> (files fs)),
     Return (mkToolResult id success [mkText "Welcome text updated successfully"])).
Proof.
  intros Hl Hd. unfold welcome.
  rewrite edit_request_action. unfold welcome_try.
  change (String.eqb "edit" "edit") with true. cbv iota.
  rewrite edit_request_content. unfold write_text.
  rewrite !bool_decide_eq_false_2 by done. done.
Qed.

(** A view of a readable entry returns the tag line and the stored text
    as text-mode reading delivers it. *)
Lemma welcome_view_stored fs id c :
  files fs !! welcome_path fs = Some c →
  welcome_path fs ∉ locked fs → welcome_path fs ∉ dirs fs →
  welcome (view_request id) fs =
    (fs, Return (mkToolResult id success
                   [mkText ("*.*" +:+ nl +:+ universal_newlines c)])).
Proof.
  intros Hc Hl Hd. unfold welcome.
  rewrite view_request_action. unfold welcome_try.
  change (String.eqb "view" "edit") with false.
  change (String.eqb "view" "view") with true. cbv iota.
  unfold exists_, read_text. rewrite Hc.
  rewrite bool_decide_eq_true_2 by eauto.
  rewrite !bool_decide_eq_false_2 by done. done.
Qed.

(** A view without an entry returns the other tag line and the banner. *)
Lemma welcome_view_default fs id :
  files fs !! welcome_path fs = None → welcome_path fs ∉ dirs fs →
  welcome (view_request id) fs =
    (fs, Return (mkToolResult id success
                   [mkText ("*welcome to strands!*" +:+ nl +:+ DEFAULT_WELCOME_TEXT)])).
Proof.
  intros Hc Hd. unfold welcome.
  rewrite view_request_action. unfold welcome_try.
  change (String.eqb "view" "edit") with false.
  change (String.eqb "view" "view") with true. cbv iota.
  unfold exists_. rewrite Hc.
  rewrite !bool_decide_eq_false_2; [done|done|].
  intros [? ?]; done.
Qed.




(** C7.  An edit whose input has no [content] field returns a
    status=error result (the validation error) and leaves the file system,
    hence the persisted entry, exactly as it was. *)
Theorem welcome_edit_requires_content tool fs :
  tu_input tool !! "action" = Some "edit" →
  tu_input tool !! "content" = None →
  welcome tool fs =
    (fs, Return (mkToolResult (tu_toolUseId tool) error
                   [mkText "Error: content is required for edit action"])).
Proof.
  intros Ha Hc. unfold welcome. rewrite Ha. unfold welcome_try.
  change (String.eqb "edit" "edit") with true. cbv iota.
  by rewrite Hc.
Qed.

Lemma welcome_edit_requires_content_witness :
  welcome edit_without_content fresh_fs =
    (fresh_fs,
     Return (mkToolResult "tooluse_4" error
               [mkText "Error: content is required for edit action"])).
Proof.
  apply (welcome_edit_requires_content edit_without_content
           fresh_fs); vm_compute; reflexivity.
Defined.

(** C8.  For an action other than view and edit the tool returns a
    status=error result whose message names the action, and the file
    system is as before the call. *)
Theorem welcome_unknown_action tool fs action :
  tu_input tool !! "action" = Some action →
  action ≠ "view" → action ≠ "edit" →
  welcome tool fs =
    (fs, Return (mkToolResult (tu_toolUseId tool) error
                   [mkText ("Unknown action: " +:+ action)])).
Proof.
  intros Ha Hv He. unfold welcome. rewrite Ha. unfold welcome_try.
  apply String.eqb_neq in Hv, He. by rewrite Hv, He.
Qed.

Lemma welcome_unknown_action_witness :
  welcome bogus_request fresh_fs =
    (fresh_fs,
     Return (mkToolResult "tooluse_3" error [mkText "Unknown action: bogus"])).
Proof.
  apply (welcome_unknown_action bogus_request fresh_fs "bogus");
    [vm_compute; reflexivity | discriminate | discriminate].
Defined.

(** The [try] block raises nothing but [Exception]s. *)
Lemma welcome_try_raises id action tool_input fs fs' e :
  welcome_try id action tool_input fs = (fs', Raise e) → is_Exception e = true.
Proof.
  unfold welcome_try, write_text, read_text, exists_.
  repeat case_match; intros; simplify_eq; done.
Qed.

Lemma welcome_try_toolUseId id action tool_input fs fs' r :
  welcome_try id action tool_input fs = (fs', Return r) → toolUseId r = id.
Proof.
  unfold welcome_try, write_text, read_text, exists_.
  repeat case_match; intros; simplify_eq; done.
Qed.

(** C10.  Every request that carries an action gets a result, and every
    result that the tool returns, for view, edit, an unknown action or a
    failure turned into an error result, carries the toolUseId of the
    request. *)
Theorem welcome_keeps_toolUseId tool fs :
  (is_Some (tu_input tool !! "action") →
     ∃ r, (welcome tool fs).2 = Return r)
  ∧ (∀ fs' r, welcome tool fs = (fs', Return r) →
       toolUseId r = tu_toolUseId tool).
Proof.
  unfold welcome. split.
  - intros [action ->].
    destruct (welcome_try _ _ _ _) as [fs' [r|e]] eqn:Ht; [by eexists|].
    rewrite (welcome_try_raises _ _ _ _ _ _ Ht). by eexists.
  - intros fs' r. destruct (tu_input tool !! "action") as [action|]; [|done].
    destruct (welcome_try _ _ _ _) as [fs1 [r1|e]] eqn:Ht.
    + intros [= <- <-]. by eapply welcome_try_toolUseId.
    + rewrite (welcome_try_raises _ _ _ _ _ _ Ht). by intros [= <- <-].
Qed.

Lemma welcome_keeps_toolUseId_witness :
  (∃ r, (welcome bogus_request fresh_fs).2 = Return r)
  ∧ toolUseId (mkToolResult "tooluse_3" error [mkText "Unknown action: bogus"])
    = tu_toolUseId bogus_request.
Proof.
  destruct (welcome_keeps_toolUseId bogus_request fresh_fs)
    as [H1 H2].
  split.
  - apply H1. vm_compute. eauto.
  - apply (H2 fresh_fs). vm_compute. reflexivity.
Defined.

End WelcomeProperties.

(** * Properties of the input helper *)

Section HistoryPath.
Import Py Fs UserInput Examples.

Lemma append_assoc (a b c : string) : (a +:+ b) +:+ c = a +:+ (b +:+ c).
Proof.
  induction a as [|x a IH]; [done|].
  change (String x ((a +:+ b) +:+ c) = String x (a +:+ (b +:+ c))).
  by rewrite IH.
Qed.

Lemma home_path_spelled fs :
  home_path fs = home fs +:+ "/.strands/input_history".
Proof. unfold home_path, strands_dir. by rewrite append_assoc. Qed.



End HistoryPath.

Section Advisory.
Import Py UserInput.

Implicit Types (agent : option Agent) (b : Buffer) (s : Session).

Lemma launch_assistant_buffer agent txt b :
  l_buffer (launch_assistant agent txt (Some b)) = Some b.
Proof.
  unfold launch_assistant. destruct agent as [ag|]; [|done].
  destruct (future_result _ _) as [waited [reply|e]];
    [by destruct (truthy reply && _), b|].
  destruct (is_Exception e); by destruct b.
Qed.

Lemma after_pause_buffer agent txt b :
  l_buffer (after_pause agent txt (Some b)) = Some b.
Proof.
  unfold after_pause. destruct (truthy (text b)); [|done].
  pose proof (launch_assistant_buffer agent txt b) as H.
  destruct (l_raised _) as [e|]; [|done].
  by destruct (is_Exception e).
Qed.

Lemma wake_buffer agent i t s : buffer (wake agent i t s) = buffer s.
Proof. unfold wake. cbn [buffer]. by rewrite after_pause_buffer. Qed.

Lemma run_due_buffer agent n i s : buffer (run_due agent n i s) = buffer s.
Proof.
  revert i s. induction n as [|n IH]; intros i s; [done|].
  cbn. destruct (crashed s); [done|].
  destruct (tasks s !! i) as [t|]; [|done].
  destruct (sleeping t && _); rewrite IH; [apply wake_buffer | done].
Qed.

Lemma elapse_buffer agent dt s : buffer (elapse agent dt s) = buffer s.
Proof.
  unfold elapse. destruct (crashed s); [done|]. by rewrite run_due_buffer.
Qed.

(** C1.  Whatever the advisor does (answer, fail, exceed the timeout) and
    whatever is written to the buffer while it runs, the buffer that
    [launch_assistant] leaves behind has the text and the cursor position
    it had when the invocation began; so has the buffer after the whole
    timer callback, and so has the session's buffer after any stretch of
    time in which debounce timers fire. *)
Theorem advisory_restores_buffer agent txt b :
  l_buffer (launch_assistant agent txt (Some b)) = Some b
  ∧ l_buffer (after_pause agent txt (Some b)) = Some b
  ∧ ∀ dt s, text (buffer (elapse agent dt s)) = text (buffer s)
            ∧ cursor_position (buffer (elapse agent dt s))
              = cursor_position (buffer s).
Proof.
  split; [apply launch_assistant_buffer|].
  split; [apply after_pause_buffer|].
  intros dt s. by rewrite elapse_buffer.
Qed.

End Advisory.

Section Debounce.
Import Py UserInput.

Variable agent : option Agent.
Variable typing_timeout : Z.

Implicit Types (b : Buffer) (s : Session) (t : Task) (ts : list Task).

Local Abbreviation reachable := (UserInput.reachable agent typing_timeout).
Local Abbreviation armed := (UserInput.armed agent typing_timeout).

Lemma cancel_pending_length timer ts :
  length (cancel_pending timer ts) = length ts.
Proof.
  unfold cancel_pending. destruct timer as [i|]; [|done].
  destruct (ts !! i) as [t|]; [|done].
  destruct (negb (done_ t)); [apply length_insert | done].
Qed.

(** Whether [handle_text_change] starts a timer. *)
Lemma handle_text_change_tasks s :
  tasks (handle_text_change agent typing_timeout s) =
    if present agent
       && Nat.ltb min_text_length (String.length (text (buffer s)))
       && negb (String.eqb (text (buffer s)) (current_text s))
    then (cancel_pending (typing_timer s) (tasks s)
            ++ [mkTask (text (buffer s)) (now s + typing_timeout) Sleeping])%list
    else cancel_pending (typing_timer s) (tasks s).
Proof. unfold handle_text_change. by destruct (_ && _). Qed.

(** C6.  A text-change event whose text is shorter than five characters
    starts no timer: the handler creates no task.  When the handler
    does create a task, the text is longer than five characters and
    differs from the text that last started one. *)
Theorem debounce_trigger_condition s :
  (String.length (text (buffer s)) < 5 →
     length (tasks (handle_text_change agent typing_timeout s))
     = length (tasks s))
  ∧ (length (tasks (handle_text_change agent typing_timeout s))
     ≠ length (tasks s) →
     5 < String.length (text (buffer s))
     ∧ text (buffer s) ≠ current_text s).
Proof.
  rewrite handle_text_change_tasks. unfold min_text_length.
  destruct (present agent); cbn [andb];
    [|rewrite cancel_pending_length; split; [done | congruence]].
  destruct (Nat.ltb_spec 5 (String.length (text (buffer s)))) as [Hlen|Hlen];
    cbn [andb]; [|rewrite cancel_pending_length; split; [done | congruence]].
  destruct (String.eqb_spec (text (buffer s)) (current_text s)) as [Heq|Hne];
    cbn [negb]; [rewrite cancel_pending_length; split; [done | congruence]|].
  split; [lia | done].
Qed.

(** *** The single-timer invariant *)

Lemma quiet_filter ts : quiet ts → filter (λ t, sleeping t = true) ts = [].
Proof.
  induction ts as [|t ts IH]; intros Hq; [done|].
  rewrite filter_cons_False.
  - apply IH. intros i t' Hi. by apply (Hq (S i)).
  - by rewrite (Hq 0 t).
Qed.

Lemma at_most_one_sleeping ts :
  (∀ i j ti tj, ts !! i = Some ti → ts !! j = Some tj →
     sleeping ti = true → sleeping tj = true → i = j) →
  (length (filter (λ t, sleeping t = true) ts) ≤ 1)%nat.
Proof.
  induction ts as [|t ts IH]; intros Huniq; [cbn; lia|].
  destruct (sleeping t) eqn:Ht.
  - rewrite filter_cons_True by done.
    rewrite quiet_filter; [cbn; lia|].
    intros j tj Hj. destruct (sleeping tj) eqn:Hs; [|done].
    by specialize (Huniq 0 (S j) t tj eq_refl Hj Ht Hs).
  - rewrite filter_cons_False by congruence.
    apply IH. intros i j ti tj Hi Hj Hsi Hsj.
    specialize (Huniq (S i) (S j) ti tj Hi Hj Hsi Hsj). lia.
Qed.

Lemma single_timer_active s : single_timer s → (length (active s) ≤ 1)%nat.
Proof.
  intros Hs. apply at_most_one_sleeping.
  intros i j ti tj Hi Hj Hsi Hsj.
  pose proof (Hs i ti Hi Hsi). pose proof (Hs j tj Hj Hsj). congruence.
Qed.

(** A task that sleeps although it is not the one [typing_timer] names
    contradicts the invariant [Hs]. *)
Local Ltac not_the_timer Hs :=
  let Hj := fresh "Hj" in
  let Hsl := fresh "Hsl" in
  intros Hj;
  match goal with
  | Hj : _ !! ?j = Some ?t |- sleeping ?t = false =>
      destruct (sleeping t) eqn:Hsl; [|done];
      specialize (Hs j t Hj Hsl); simplify_eq
  end.

(** After the cancellation at the head of the handler nothing sleeps. *)
Lemma cancel_pending_quiet s :
  single_timer s → quiet (cancel_pending (typing_timer s) (tasks s)).
Proof.
  intros Hs j t. unfold cancel_pending.
  destruct (typing_timer s) as [i|] eqn:Htimer; [|by not_the_timer Hs].
  destruct (tasks s !! i) as [ti|] eqn:Hi; [|by not_the_timer Hs].
  destruct (negb (done_ ti)) eqn:Hdone.
  - destruct (decide (i = j)) as [->|Hne].
    + rewrite list_lookup_insert_eq by (by eapply lookup_lt_Some).
      by intros [= <-].
    + rewrite list_lookup_insert_ne by done. by not_the_timer Hs.
  - not_the_timer Hs. unfold done_ in Hdone. by rewrite Hsl in Hdone.
Qed.

Lemma handle_text_change_single s :
  single_timer s → single_timer (handle_text_change agent typing_timeout s).
Proof.
  intros Hs. pose proof (cancel_pending_quiet s Hs) as Hq.
  unfold handle_text_change. destruct (_ && _); intros i t; cbn.
  - intros Hi Hsl. apply lookup_app_Some in Hi as [Hi'|[Hge Hi']].
    + by rewrite (Hq i t Hi') in Hsl.
    + apply list_lookup_singleton_Some in Hi' as [Hi' _].
      f_equal. lia.
  - intros Hi Hsl. by rewrite (Hq i t Hi) in Hsl.
Qed.

Lemma wake_single i t s : single_timer s → single_timer (wake agent i t s).
Proof.
  intros Hs j tj. unfold wake; cbn [tasks typing_timer].
  destruct (decide (i = j)) as [->|Hne].
  - intros Hj Hsl. apply list_lookup_insert_Some in Hj as [(_ & <- & _)|(? & _)];
      [done | congruence].
  - rewrite list_lookup_insert_ne by done. apply Hs.
Qed.

Lemma run_due_single n i s :
  single_timer s → single_timer (run_due agent n i s).
Proof.
  revert i s. induction n as [|n IH]; intros i s Hs; [done|].
  cbn. destruct (crashed s); [done|].
  destruct (tasks s !! i) as [t|]; [|done].
  destruct (sleeping t && _); apply IH; [by apply wake_single | done].
Qed.

Lemma elapse_single dt s : single_timer s → single_timer (elapse agent dt s).
Proof.
  intros Hs. unfold elapse. destruct (crashed s); [done|].
  by apply run_due_single.
Qed.

Lemma reachable_single s : reachable s → single_timer s.
Proof.
  induction 1 as [d|s dt _ IH|s b _ IH|s _ IH].
  - intros i t Hi. done.
  - by apply elapse_single.
  - exact IH.
  - by apply handle_text_change_single.
Qed.

Lemma text_changed_reachable ev s :
  reachable s → reachable (text_changed agent typing_timeout ev s).
Proof.
  intros Hr. unfold text_changed.
  pose proof (reach_elapse agent typing_timeout s ev.1 Hr) as Hr1.
  destruct (crashed _); [done|].
  pose proof (reach_keystroke agent typing_timeout _ ev.2 Hr1) as Hr2.
  destruct (present agent); [by apply reach_handler | done].
Qed.

Lemma typing_reachable script s :
  reachable s → reachable (typing agent typing_timeout script s).
Proof.
  revert s. induction script as [|ev script IH]; intros s Hr; [done|].
  cbn. apply IH. by apply text_changed_reachable.
Qed.

(** *** Which timer fires *)

Lemma run_due_none_due n i s :
  (∀ j t, tasks s !! j = Some t →
     sleeping t && (t_wakes t <=? now s)%Z = false) →
  run_due agent n i s = s.
Proof.
  revert i. induction n as [|n IH]; intros i Hnone; [done|].
  cbn. destruct (crashed s); [done|].
  destruct (tasks s !! i) as [t|] eqn:Hi; [|done].
  rewrite (Hnone i t Hi). by apply IH.
Qed.

Lemma wake_quiet i t s :
  single_timer s → tasks s !! i = Some t → sleeping t = true →
  quiet (tasks (wake agent i t s)).
Proof.
  intros Hs Hi Hsl j tj. unfold wake; cbn [tasks].
  destruct (decide (i = j)) as [->|Hne].
  - rewrite list_lookup_insert_eq by (by eapply lookup_lt_Some).
    by intros [= <-].
  - rewrite list_lookup_insert_ne by done. intros Hj.
    destruct (sleeping tj) eqn:Hslj; [|done].
    pose proof (Hs i t Hi Hsl). pose proof (Hs j tj Hj Hslj). congruence.
Qed.

(** Under the invariant the loop either finds nothing due or runs the
    one task that [typing_timer] names. *)
Lemma run_due_fires n k s :
  single_timer s →
  run_due agent n k s = s
  ∨ ∃ i t, typing_timer s = Some i ∧ tasks s !! i = Some t
           ∧ sleeping t = true ∧ run_due agent n k s = wake agent i t s.
Proof.
  revert k. induction n as [|n IH]; intros k Hs; [by left|].
  cbn. destruct (crashed s); [by left|].
  destruct (tasks s !! k) as [t|] eqn:Hk; [|by left].
  destruct (sleeping t) eqn:Hsl; cbn [andb]; [|by apply IH].
  destruct (t_wakes t <=? now s)%Z; [|by apply IH].
  right. exists k, t. split_and!; [by eapply Hs | done | done |].
  apply run_due_none_due. intros j tj Hj.
  by rewrite (wake_quiet k t s Hs Hk Hsl j tj Hj).
Qed.

Lemma elapse_fires dt s :
  single_timer s →
  elapse agent dt s = s
  ∨ elapse agent dt s = set_now s (now s + dt)
  ∨ ∃ i t, typing_timer s = Some i ∧ tasks s !! i = Some t
           ∧ sleeping t = true
           ∧ elapse agent dt s = wake agent i t (set_now s (now s + dt)).
Proof.
  intros Hs. unfold elapse. destruct (crashed s); [by left|]. right.
  destruct (run_due_fires (length (tasks (set_now s (now s + dt)))) 0
              (set_now s (now s + dt)) Hs) as [->|(i & t & ? & ? & ? & ->)];
    [by left|right; eauto 10].
Qed.

Lemma launch_assistant_asked txt (ob : option Buffer) :
  (length (l_asked (launch_assistant agent txt ob)) ≤ 1)%nat.
Proof.
  unfold launch_assistant. destruct agent as [ag|]; [|cbn; lia].
  destruct ob as [b|]; [|cbn; lia].
  destruct (future_result _ _) as [waited [reply|e]];
    [destruct (truthy reply && _); cbn; lia|].
  destruct (is_Exception e); cbn; lia.
Qed.

Lemma after_pause_asked txt (ob : option Buffer) :
  (length (l_asked (after_pause agent txt ob)) ≤ 1)%nat.
Proof.
  unfold after_pause. destruct ob as [b|]; [|cbn; lia].
  destruct (truthy (text b)); [|cbn; lia].
  pose proof (launch_assistant_asked txt (Some b)) as H.
  destruct (l_raised _) as [e|]; [|done].
  by destruct (is_Exception e).
Qed.

(** *** Rapid typing *)

(** The only task that sleeps after the handler is the one it has just
    created. *)
Lemma handle_text_change_sleeping s i t :
  single_timer s →
  tasks (handle_text_change agent typing_timeout s) !! i = Some t →
  sleeping t = true →
  i = length (tasks s) ∧ t_wakes t = (now s + typing_timeout)%Z.
Proof.
  intros Hs. pose proof (cancel_pending_quiet s Hs) as Hq.
  rewrite handle_text_change_tasks. destruct (_ && _).
  - intros Hi Hsl. apply lookup_app_Some in Hi as [Hi|[Hge Hi]].
    + by rewrite (Hq i t Hi) in Hsl.
    + apply list_lookup_singleton_Some in Hi as [Hi <-].
      rewrite cancel_pending_length in Hge, Hi. split; [lia | done].
  - intros Hi Hsl. by rewrite (Hq i t Hi) in Hsl.
Qed.

Lemma handle_text_change_log s :
  crashed (handle_text_change agent typing_timeout s) = crashed s
  ∧ fired (handle_text_change agent typing_timeout s) = fired s
  ∧ advised (handle_text_change agent typing_timeout s) = advised s
  ∧ now (handle_text_change agent typing_timeout s) = now s.
Proof. unfold handle_text_change. by destruct (_ && _). Qed.

Lemma elapse_armed f a dt s :
  armed f a s → (0 ≤ dt < typing_timeout)%Z →
  elapse agent dt s = set_now s (now s + dt).
Proof.
  intros (Hc & _ & _ & _ & Hw & _) Hdt. unfold elapse. rewrite Hc.
  apply run_due_none_due. intros j t Hj. cbn [tasks now set_now] in *.
  destruct (sleeping t) eqn:Hsl; [|done]. cbn [andb].
  rewrite (Hw j t Hj Hsl). apply Z.leb_gt. lia.
Qed.

(** What the handler, when attached, or else the bare keystroke leaves
    behind. *)
Lemma handler_arms s2 s0 :
  single_timer s2 → crashed s2 = None → (agent = None → tasks s2 = []) →
  length (tasks s2) = length (tasks s0) →
  let s' := if present agent
            then handle_text_change agent typing_timeout s2 else s2 in
  armed (fired s2) (advised s2) s'
  ∧ ∀ i t, tasks s' !! i = Some t → sleeping t = true →
           (length (tasks s0) ≤ i)%nat.
Proof.
  intros Hs2 Hc Hnone Hlen. destruct (present agent) eqn:Hp; cbn zeta.
  - destruct (handle_text_change_log s2) as (Hc2 & Hf2 & Had2 & Hn2).
    split.
    + unfold UserInput.armed. rewrite Hc2, Hf2, Had2, Hn2.
      split_and!; try done.
      * by apply handle_text_change_single.
      * intros i t Hi Hsl.
        by destruct (handle_text_change_sleeping s2 i t Hs2 Hi Hsl) as [_ ->].
      * intros Hag. by rewrite Hag in Hp.
    + intros i t Hi Hsl.
      destruct (handle_text_change_sleeping s2 i t Hs2 Hi Hsl) as [-> _].
      lia.
  - assert (Hag : agent = None) by (revert Hp; by destruct agent).
    specialize (Hnone Hag). unfold UserInput.armed, single_timer.
    rewrite Hnone.
    split; [split_and!; try done; intros i t Hi; done|].
    intros i t Hi; done.
Qed.

Lemma text_changed_armed f a ev s :
  armed f a s → (0 ≤ ev.1 < typing_timeout)%Z →
  armed f a (text_changed agent typing_timeout ev s)
  ∧ ∀ i t, tasks (text_changed agent typing_timeout ev s) !! i = Some t →
           sleeping t = true → (length (tasks s) ≤ i)%nat.
Proof.
  intros Ha Hdt. unfold text_changed. rewrite (elapse_armed _ _ _ _ Ha Hdt).
  destruct Ha as (Hc & <- & <- & Hs & Hw & Hnone).
  cbn [crashed set_now]. rewrite Hc.
  by apply (handler_arms (set_buffer (set_now s (now s + ev.1)) ev.2) s).
Qed.

Lemma typing_snoc script ev s :
  typing agent typing_timeout (script ++ [ev]) s
  = text_changed agent typing_timeout ev (typing agent typing_timeout script s).
Proof. unfold typing. by rewrite foldl_app. Qed.

Lemma typing_armed f a script s :
  armed f a s → Forall (λ ev, (0 ≤ ev.1 < typing_timeout)%Z) script →
  armed f a (typing agent typing_timeout script s).
Proof.
  revert s. induction script as [|ev script IH]; intros s Ha Hall; [done|].
  inversion Hall as [|? ? Hev Hrest]; subst. cbn. apply IH; [|done].
  by apply text_changed_armed.
Qed.

(** *** After any history *)

Lemma wake_length i t s : length (tasks (wake agent i t s)) = length (tasks s).
Proof. unfold wake; cbn [tasks]. apply length_insert. Qed.

Lemma elapse_length dt s :
  single_timer s → length (tasks (elapse agent dt s)) = length (tasks s).
Proof.
  intros Hs.
  destruct (elapse_fires dt s Hs) as [->|[->|(i & t & _ & _ & _ & ->)]];
    [done | done | by rewrite wake_length].
Qed.

Lemma reachable_no_agent s : reachable s → agent = None → tasks s = [].
Proof.
  intros Hr Hag. induction Hr as [d|s dt Hr IH|s b _ IH|s _ IH]; [done| |done|].
  - pose proof (elapse_length dt s (reachable_single s Hr)) as Hlen.
    rewrite IH in Hlen. by apply nil_length_inv.
  - rewrite handle_text_change_tasks, Hag, IH. cbn.
    by destruct (typing_timer s).
Qed.

(** Once the loop has stopped nothing changes any more. *)
Lemma text_changed_crashed ev s e :
  crashed s = Some e → text_changed agent typing_timeout ev s = s.
Proof. intros Hc. unfold text_changed, elapse. by rewrite !Hc. Qed.

Lemma typing_crashed script s e :
  crashed s = Some e → typing agent typing_timeout script s = s.
Proof.
  intros Hc. induction script as [|ev script IH]; [done|].
  cbn. by rewrite (text_changed_crashed ev s e Hc).
Qed.

(** A text-change event after any history leaves the session armed,
    unless the loop has stopped; the timer that sleeps afterwards, if
    any, did not exist before the event. *)
Lemma text_changed_arms ev s0 :
  reachable s0 →
  let s1 := text_changed agent typing_timeout ev s0 in
  crashed s1 = None →
  armed (fired s1) (advised s1) s1
  ∧ ∀ i t, tasks s1 !! i = Some t → sleeping t = true →
           (length (tasks s0) ≤ i)%nat.
Proof.
  intros Hr s1. unfold s1, text_changed.
  pose proof (reach_elapse agent typing_timeout s0 ev.1 Hr) as Hr1.
  pose proof (elapse_length ev.1 s0 (reachable_single s0 Hr)) as Hlen.
  destruct (crashed (elapse agent ev.1 s0)) eqn:Hc1; [congruence|].
  intros _.
  pose proof (handler_arms (set_buffer (elapse agent ev.1 s0) ev.2) s0) as H.
  destruct H as [Ha Hnew]; try done.
  - exact (reachable_single _ Hr1).
  - apply (reachable_no_agent _ Hr1).
  - split; [|exact Hnew].
    destruct Ha as (Hc & Hf & Had & Hst & Hw & Hn).
    unfold UserInput.armed. split_and!; done.
Qed.

(** From any state, a wait fires at most the timer that [typing_timer]
    names, and asks the advisor at most once. *)
Lemma elapse_at_most_one dt s :
  single_timer s →
  ∃ f a, fired (elapse agent dt s) = (fired s ++ f)%list
         ∧ advised (elapse agent dt s) = (advised s ++ a)%list
         ∧ (length f ≤ 1)%nat ∧ (length a ≤ 1)%nat
         ∧ ∀ i, i ∈ f → typing_timer s = Some i
                        ∧ ∃ t, tasks s !! i = Some t ∧ sleeping t = true.
Proof.
  intros Hs.
  destruct (elapse_fires dt s Hs) as [->|[->|(i & t & Ht & Hi & Hsl & ->)]].
  - exists [], []. rewrite !app_nil_r. split_and!; [done | done | cbn; lia ..|].
    intros i Hi. by inversion Hi.
  - exists [], []. rewrite !app_nil_r. split_and!; [done | done | cbn; lia ..|].
    intros i Hi. by inversion Hi.
  - eexists [i], _. unfold wake; cbn [fired advised set_now].
    split_and!; [done | done | cbn; lia | apply after_pause_asked |].
    intros j Hj. apply list_elem_of_singleton in Hj as ->. eauto.
Qed.


End Debounce.

Section DebounceExamples.
Import Py UserInput Examples.

Example burst_fires_last_timer :
  fired after_burst = []
  ∧ fired (elapse (Some quick_agent) 5000 after_burst) = [1]
  ∧ advised (elapse (Some quick_agent) 5000 after_burst) = ["hello world"].
Proof. by vm_compute. Qed.


Lemma debounce_trigger_condition_witness :
  length (tasks (handle_text_change (Some quick_agent) 2500
                   (set_buffer (start EmptyString) (mkBuffer "hey" 3))))
  = 0
  ∧ 5 < String.length (text hello_world).
Proof.
  split.
  - apply (debounce_trigger_condition (Some quick_agent) 2500
             (set_buffer (start EmptyString) (mkBuffer "hey" 3))).
    simpl. lia.
  - apply (debounce_trigger_condition (Some quick_agent) 2500
             (set_buffer (start EmptyString) hello_world)).
    vm_compute. lia.
Defined.

End DebounceExamples.

Section Termination.
Import Py UserInput.

Variable agent : option Agent.
Variable typing_timeout : Z.

(** A prompt that ends while the loop is intact returns the default on
    interrupt and on end of input, and leaves the session as it found
    it: the [except] clause does not touch [typing_timer]. *)
Lemma interrupt_returns_default prompt default_ script last ending :
  ending ≠ Submit →
  let s := elapse agent last
             (typing agent typing_timeout script (start default_)) in
  crashed s = None →
  get_user_input_async prompt default_ agent typing_timeout script last ending
  = (Return default_, s).
Proof.
  intros Hend s Hc. unfold get_user_input_async. fold s. rewrite Hc.
  by destruct ending.
Qed.

(** The submission path does cancel: it returns the text of the buffer
    and no timer is active afterwards. *)
Lemma submit_cancels_timer prompt default_ script last :
  let s := elapse agent last
             (typing agent typing_timeout script (start default_)) in
  let r := get_user_input_async prompt default_ agent typing_timeout
             script last Submit in
  crashed s = None →
  r.1 = Return (text (buffer s)) ∧ active r.2 = [].
Proof.
  intros s r Hc. unfold r, get_user_input_async. fold s. rewrite Hc.
  split; [done|]. cbn [snd]. apply quiet_filter.
  apply cancel_pending_quiet.
  apply (reachable_single agent typing_timeout), reach_elapse,
    typing_reachable, reach_start.
Qed.

End Termination.

Section TerminationExamples.
Import Py UserInput Examples.

(** C4 at a failing input.  The user types [hello world], which starts
    a debounce timer due 2500 ms later, and interrupts the prompt 100 ms
    after the keystroke.  The call returns the default, as C4 says, but
    the timer is still active when it returns, which C4 denies; ending
    the same prompt by submission leaves no active timer. *)
Theorem interrupt_leaves_timer_pending :
  get_user_input_async "> " "fallback" (Some quick_agent) 2500
    [(100%Z, hello_world)] 100 Interrupt
  = (Return "fallback",
     mkSession (Some 0%nat) "hello world"
       [mkTask "hello world" 2600 Sleeping] hello_world 200 [] [] [] 0 None)
  ∧ active (get_user_input_async "> " "fallback" (Some quick_agent) 2500
              [(100%Z, hello_world)] 100 Interrupt).2
    = [mkTask "hello world" 2600 Sleeping]
  ∧ active (get_user_input_async "> " "fallback" (Some quick_agent) 2500
              [(100%Z, hello_world)] 100 EndOfInput).2
    = [mkTask "hello world" 2600 Sleeping]
  ∧ active (get_user_input_async "> " "fallback" (Some quick_agent) 2500
              [(100%Z, hello_world)] 100 Submit).2
    = [].
Proof. by vm_compute. Qed.

End TerminationExamples.

Section Containment.
Import Py UserInput.

Implicit Types (ag : Agent) (b : Buffer).

(** The calling thread is held for as long as the worker runs: the wait
    for the result stops at the timeout, the exit of the [with] block
    then waits for the worker. *)
Lemma launch_assistant_held ag txt b :
  l_held (launch_assistant (Some ag) txt (Some b))
  = took (respond ag (assistant_prompt txt)).
Proof.
  unfold launch_assistant, future_result, executor_exit, RESULT_TIMEOUT.
  destruct (Z.leb_spec (took (respond ag (assistant_prompt txt))) 10000)
    as [Hle|Hgt].
  - destruct (answer _) as [reply|e];
      [destruct (truthy reply && _)|destruct (is_Exception e)]; cbn; lia.
  - cbn. lia.
Qed.

(** On a timeout the console shows the indicator and the printed
    [TimeoutError], and no suggestion. *)
Lemma launch_assistant_timeout ag txt b :
  (RESULT_TIMEOUT < took (respond ag (assistant_prompt txt)))%Z →
  l_console (launch_assistant (Some ag) txt (Some b))
  = [Thinking; Printed TimeoutError]
  ∧ l_raised (launch_assistant (Some ag) txt (Some b)) = None.
Proof.
  intros Hgt. unfold launch_assistant, future_result.
  by rewrite (proj2 (Z.leb_gt _ _) Hgt).
Qed.

(** Only an exception outside [Exception] leaves [launch_assistant], and
    the timer callback lets through nothing else either. *)
Lemma launch_assistant_raised (agent : option Agent) txt ob e :
  l_raised (launch_assistant agent txt ob) = Some e → is_Exception e = false.
Proof.
  unfold launch_assistant. destruct agent as [ag|]; [|done].
  destruct ob as [b|]; [|done].
  destruct (future_result _ _) as [waited [reply|e']];
    [by destruct (truthy reply && _)|].
  destruct (is_Exception e') eqn:He; [done|]. by intros [= <-].
Qed.

Lemma after_pause_raised (agent : option Agent) txt ob e :
  l_raised (after_pause agent txt ob) = Some e → is_Exception e = false.
Proof.
  unfold after_pause. destruct ob as [b|]; [|done].
  destruct (truthy (text b)); [|done].
  destruct (l_raised (launch_assistant _ _ _)) as [e'|] eqn:Hr; [|by rewrite Hr].
  pose proof (launch_assistant_raised _ _ _ _ Hr) as He'.
  rewrite He', Hr. by intros [= <-].
Qed.

(** Without an agent nothing happens. *)
Lemma launch_assistant_absent txt ob :
  launch_assistant None txt ob = nothing_done ob.
Proof. done. Qed.

End Containment.

Section ContainmentExamples.
Import Py UserInput Examples.

(** C5 at a failing input.  The advisor needs a minute.  The wait for
    its result ends with [TimeoutError] after ten seconds and nothing of
    its answer is shown, as C5 says; but the advisory call holds the
    thread of the prompt for the whole minute, in [launch_assistant] and
    so in the session, which the ten-second bound of C5 excludes. *)
Theorem advisory_wait_exceeds_bound :
  future_result (respond slow_agent (assistant_prompt "hello world"))
    RESULT_TIMEOUT = (10000%Z, Raise TimeoutError)
  ∧ launch_assistant (Some slow_agent) "hello world" (Some hello_world)
    = mkLaunch (Some hello_world) [Thinking; Printed TimeoutError]
        ["hello world"] 60000 None
  ∧ (RESULT_TIMEOUT
     < l_held (launch_assistant (Some slow_agent) "hello world"
                 (Some hello_world)))%Z
  ∧ get_user_input_async "> " EmptyString (Some slow_agent) 2500
      [(100%Z, hello_world)] 3000 Submit
    = (Return "hello world",
       mkSession (Some 0%nat) "hello world"
         [mkTask "hello world" 2600 Finished] hello_world 3100
         [Thinking; Printed TimeoutError] [0%nat] ["hello world"] 60000 None).
Proof. by vm_compute. Qed.

End ContainmentExamples.

(** * Further properties of the welcome tool *)

Section WelcomeEffects.
Import Py Fs Welcome Examples Scenarios.

Implicit Types (fs : FileSystem) (tool : ToolUse).

(** What a call does to the file system: nothing, or, for an edit with
    content on a path that can be written, the replacement of the text
    under [.welcome], reported as a success. *)
Lemma welcome_effect tool fs :
  (welcome tool fs).1 = fs
  ∨ ∃ c, tu_input tool !! "action" = Some "edit"
         ∧ tu_input tool !! "content" = Some c
         ∧ welcome tool fs =
             (with_files fs (<[welcome_path fs := c]> (files fs)),
              Return (mkToolResult (tu_toolUseId tool) success
                        [mkText "Welcome text updated successfully"])).
Proof.
  unfold welcome.
  destruct (tu_input tool !! "action") as [action|] eqn:Ha; [|by left].
  unfold welcome_try.
  destruct (String.eqb_spec action "edit") as [->|Hne].
  - destruct (tu_input tool !! "content") as [c|] eqn:Hc; [|by left].
    unfold write_text.
    destruct (bool_decide (welcome_path fs ∈ locked fs)); [by left|].
    destruct (bool_decide (welcome_path fs ∈ dirs fs)); [by left|].
    right. by exists c.
  - left. destruct (String.eqb action "view"); [|done].
    destruct (exists_ _ _); [|done].
    destruct (read_text _ _) as [c|e] eqn:Hr; [done|].
    by destruct (is_Exception e).
Qed.

(** X1.  The file system changes only through an edit that carries
    content: a view, an unknown action, an edit without content and a
    request without an action leave every file as it is. *)
Theorem welcome_writes_only_by_edit tool fs :
  (welcome tool fs).1 ≠ fs →
  tu_input tool !! "action" = Some "edit"
  ∧ is_Some (tu_input tool !! "content").
Proof.
  intros Hchg. destruct (welcome_effect tool fs) as [Hsame|(c & Ha & Hc & Hw)];
    [done|].
  split; [done | by rewrite Hc].
Qed.

Lemma welcome_writes_only_by_edit_witness :
  tu_input (edit_request "tooluse_1" "X") !! "action" = Some "edit"
  ∧ is_Some (tu_input (edit_request "tooluse_1" "X") !! "content").
Proof.
  apply (welcome_writes_only_by_edit (edit_request "tooluse_1" "X") fresh_fs).
  vm_compute. intros H. discriminate H.
Defined.







(** Within the function, from the lookup of the action on, a missing
    action is all that raises. *)
Lemma welcome_raises_without_action tool fs :
  (tu_input tool !! "action" = None →
     welcome tool fs = (fs, Raise (KeyError "action")))
  ∧ (∀ e, (welcome tool fs).2 = Raise e →
       tu_input tool !! "action" = None ∧ e = KeyError "action").
Proof.
  unfold welcome. split; [by intros ->|].
  intros e. destruct (tu_input tool !! "action") as [action|]; [|by intros [= <-]].
  destruct (welcome_try _ _ _ _) as [fs' [r|e']] eqn:Ht; [done|].
  by rewrite (welcome_try_raises _ _ _ _ _ _ Ht).
Qed.

(** X5.  Two failures are not turned into a result, because they
    happen before the [try]: without a working directory [Path.cwd()]
    raises its [OSError] for every request, and with one a request
    without an action raises [KeyError].  Both reach the caller and
    nothing is written; no failure of the file system inside the [try]
    reaches the caller. *)
Theorem welcome_call_raises cwd_exists tool fs :
  (cwd_exists = false →
     welcome_call cwd_exists tool fs = (fs, Raise no_working_directory))
  ∧ (cwd_exists = true → tu_input tool !! "action" = None →
     welcome_call cwd_exists tool fs = (fs, Raise (KeyError "action")))
  ∧ (∀ e, (welcome_call cwd_exists tool fs).2 = Raise e →
       (cwd_exists = false ∧ e = no_working_directory)
       ∨ (cwd_exists = true ∧ tu_input tool !! "action" = None
          ∧ e = KeyError "action")).
Proof.
  destruct (welcome_raises_without_action tool fs) as [Hmiss Honly].
  unfold welcome_call. destruct cwd_exists; split_and!.
  - intros H. discriminate H.
  - intros _ Hm. by apply Hmiss.
  - intros e He. right. destruct (Honly e He). by split_and!.
  - done.
  - intros H. discriminate H.
  - intros e He. left. split; [done|]. cbn in He. by injection He.
Qed.

Lemma welcome_call_raises_witness :
  welcome_call false (view_request "tooluse_1") fresh_fs
  = (fresh_fs, Raise no_working_directory)
  ∧ welcome_call true (mkToolUse "tooluse_5" "welcome" ∅) fresh_fs
    = (fresh_fs, Raise (KeyError "action")).
Proof.
  split.
  - apply (welcome_call_raises false (view_request "tooluse_1") fresh_fs).
    reflexivity.
  - apply (welcome_call_raises true (mkToolUse "tooluse_5" "welcome" ∅)
             fresh_fs); [reflexivity | vm_compute; reflexivity].
Defined.

(** X6.  Every result holds exactly one text block, and a success is
    returned for the actions view and edit only. *)
Theorem welcome_result_shape tool fs fs' r :
  welcome tool fs = (fs', Return r) →
  (∃ t, content r = [mkText t])
  ∧ (status r = success →
       tu_input tool !! "action" = Some "view"
       ∨ tu_input tool !! "action" = Some "edit").
Proof.
  unfold welcome.
  destruct (tu_input tool !! "action") as [action|]; [|done].
  unfold welcome_try, write_text, read_text.
  destruct (String.eqb_spec action "edit") as [->|_];
    [|destruct (String.eqb_spec action "view") as [->|_]];
    repeat case_match; intros; simplify_eq; cbn; split; eauto; done.
Qed.

Lemma welcome_result_shape_witness :
  (∃ t, content (mkToolResult "tooluse_3" error
                   [mkText "Unknown action: bogus"]) = [mkText t])
  ∧ (status (mkToolResult "tooluse_3" error [mkText "Unknown action: bogus"])
     = success →
       tu_input bogus_request !! "action" = Some "view"
       ∨ tu_input bogus_request !! "action" = Some "edit").
Proof.
  apply (welcome_result_shape bogus_request fresh_fs fresh_fs).
  vm_compute. reflexivity.
Defined.

End WelcomeEffects.

(** * Further properties of the history path *)

Section HistoryEffects.
Import Py Fs UserInput Examples Scenarios.

Implicit Types (fs : FileSystem) (environ : gmap string string).

Lemma get_history_file_path_no_override environ fs :
  no_override environ →
  get_history_file_path environ fs =
    if exists_ (strands_dir fs) fs then (fs, Return (home_path fs))
    else match mkdir_parents (strands_dir fs) fs with
         | (fs', Raise e) => (fs', Raise e)
         | (fs', Return _) => (fs', Return FALLBACK_HISTORY)
         end.
Proof. unfold get_history_file_path. by intros [-> | ->]. Qed.

(** X7.  On a first run, when [<home>/.strands] is missing and can be made,
    the call makes it and nevertheless answers with the fallback path;
    the next call, finding the directory, answers with the path under
    the home directory.  No file is written by either. *)
Theorem history_path_first_run environ fs :
  no_override environ →
  exists_ (strands_dir fs) fs = false → strands_dir fs ∉ sealed fs →
  let fs1 := (get_history_file_path environ fs).1 in
  (get_history_file_path environ fs).2 = Return "/tmp/input_history"
  ∧ dirs fs1 = {[ strands_dir fs ]} ∪ dirs fs
  ∧ files fs1 = files fs
  ∧ get_history_file_path environ fs1
    = (fs1, Return (home fs +:+ "/.strands/input_history")).
Proof.
  intros Hno Hex Hs fs1. unfold fs1.
  rewrite !(get_history_file_path_no_override _ _ Hno), Hex.
  unfold mkdir_parents. rewrite bool_decide_eq_false_2 by done.
  cbn [fst snd]. split_and!; [done | done | done |].
  unfold exists_, strands_dir; cbn [home dirs with_dirs files].
  rewrite (bool_decide_eq_true_2 (_ ∈ _ ∪ _)) by set_solver.
  rewrite orb_true_r. by rewrite <- home_path_spelled.
Qed.

Lemma history_path_first_run_witness :
  (get_history_file_path ∅ first_run_fs).2 = Return "/tmp/input_history"
  ∧ (get_history_file_path ∅ (get_history_file_path ∅ first_run_fs).1).2
    = Return "/home/dev/.strands/input_history".
Proof.
  destruct (history_path_first_run ∅ first_run_fs) as (H1 & _ & _ & H4).
  - left. vm_compute. reflexivity.
  - vm_compute. reflexivity.
  - vm_compute. set_solver.
  - split; [exact H1|]. rewrite H4. reflexivity.
Defined.



(** C9 at failing inputs.  With the variable unset and [<home>/.strands]
    missing, the second choice is not taken although it is available:
    the call makes the directory and answers [/tmp/input_history], and
    only the next call answers with the path under the home directory.
    Where the directory cannot be made, the call raises the error of
    [mkdir] and never reaches the fallback path.  And a variable set to
    the empty string is passed over. *)
Theorem history_path_skips_home :
  (get_history_file_path ∅ first_run_fs).2 = Return "/tmp/input_history"
  ∧ exists_ "/home/dev/.strands" (get_history_file_path ∅ first_run_fs).1
    = true
  ∧ (get_history_file_path ∅ (get_history_file_path ∅ first_run_fs).1).2
    = Return "/home/dev/.strands/input_history"
  ∧ get_history_file_path ∅ sealed_fs
    = (sealed_fs, Raise (permission_denied "/home/dev/.strands"))
  ∧ get_history_file_path {[ HISTORY_VARIABLE := EmptyString ]} fresh_fs
    = (fresh_fs, Return "/home/dev/.strands/input_history").
Proof. by vm_compute. Qed.

End HistoryEffects.

(** * Further properties of the debounce timers *)

Section Timers.
Import Py UserInput Examples Scenarios.

Variable agent : option Agent.
Variable typing_timeout : Z.

Implicit Types (b : Buffer) (s : Session) (t : Task) (ts : list Task).

Local Abbreviation reachable := (UserInput.reachable agent typing_timeout).
Local Abbreviation handle := (handle_text_change agent typing_timeout).

(** A property that every wake-up of a due task preserves holds after
    the loop has run the due tasks. *)
Lemma run_due_preserves (P : Session → Prop) n k s :
  (∀ i t s', P s' → crashed s' = None → tasks s' !! i = Some t →
             sleeping t = true → (t_wakes t ≤ now s')%Z →
             P (wake agent i t s')) →
  P s → P (run_due agent n k s).
Proof.
  intros Hwake. revert k s. induction n as [|n IH]; intros k s HP; [done|].
  cbn. destruct (crashed s) eqn:Hc; [done|].
  destruct (tasks s !! k) as [t|] eqn:Hk; [|done].
  destruct (sleeping t) eqn:Hsl; cbn [andb]; [|by apply IH].
  destruct (Z.leb_spec (t_wakes t) (now s)) as [Hdue|_]; [|by apply IH].
  apply IH. by apply (Hwake k t s).
Qed.

(** The induction over the states of a session, with the wake-ups as
    steps of their own. *)
Lemma reachable_preserves (P : Session → Prop) :
  (∀ default_, P (start default_)) →
  (∀ s dt, reachable s → P s → P (set_now s (now s + dt))) →
  (∀ s b, reachable s → P s → P (set_buffer s b)) →
  (∀ s, reachable s → P s → P (handle s)) →
  (∀ i t s, P s → crashed s = None → tasks s !! i = Some t →
            sleeping t = true → (t_wakes t ≤ now s)%Z →
            P (wake agent i t s)) →
  ∀ s, reachable s → P s.
Proof.
  intros Hstart Hnow Hbuf Hhandle Hwake s Hr.
  induction Hr as [d|s dt Hr IH|s b Hr IH|s Hr IH]; auto.
  unfold elapse. destruct (crashed s); [done|].
  apply run_due_preserves; [done|]. by apply Hnow.
Qed.

Lemma cancel_pending_lookup timer ts j t :
  cancel_pending timer ts !! j = Some t →
  ∃ t0, ts !! j = Some t0 ∧ t_text t = t_text t0 ∧ t_wakes t = t_wakes t0
        ∧ (t = t0 ∨ (sleeping t0 = true ∧ t = cancel t0)).
Proof.
  unfold cancel_pending. destruct timer as [i|]; [|by eauto 10].
  destruct (ts !! i) as [ti|] eqn:Hi; [|by eauto 10].
  destruct (negb (done_ ti)) eqn:Hd; [|by eauto 10].
  destruct (decide (i = j)) as [->|Hne].
  - rewrite list_lookup_insert_eq by (by eapply lookup_lt_Some).
    intros [= <-]. exists ti. split_and!; try done. right. split; [|done].
    unfold done_ in Hd. by destruct (sleeping ti).
  - rewrite list_lookup_insert_ne by done. eauto 10.
Qed.

Lemma handle_lookup s j t :
  tasks (handle s) !! j = Some t →
  (∃ t0, tasks s !! j = Some t0 ∧ t_text t = t_text t0
         ∧ t_wakes t = t_wakes t0
         ∧ (t = t0 ∨ (sleeping t0 = true ∧ t = cancel t0)))
  ∨ (triggers agent s = true ∧ j = length (tasks s)
     ∧ t = mkTask (text (buffer s)) (now s + typing_timeout) Sleeping).
Proof.
  rewrite handle_text_change_tasks. fold (triggers agent s).
  destruct (triggers agent s).
  - intros Hj. apply lookup_app_Some in Hj as [Hj|[Hge Hj]].
    + left. by apply cancel_pending_lookup in Hj.
    + right. apply list_lookup_singleton_Some in Hj as [Hj <-].
      rewrite cancel_pending_length in Hge, Hj. split_and!; [done|lia|done].
  - intros Hj. left. by apply cancel_pending_lookup in Hj.
Qed.

Lemma wake_lookup i t s j tj :
  tasks s !! i = Some t →
  tasks (wake agent i t s) !! j = Some tj →
  (j = i ∧ tj = finish t) ∨ (j ≠ i ∧ tasks s !! j = Some tj).
Proof.
  intros Hi. unfold wake; cbn [tasks].
  destruct (decide (i = j)) as [->|Hne].
  - rewrite list_lookup_insert_eq by (by eapply lookup_lt_Some).
    intros [= <-]. by left.
  - rewrite list_lookup_insert_ne by done. intros Hj. right. by split.
Qed.

(** Among the timers of one call: after the handler exactly one timer
    is active if it started one,
    and none otherwise: a change to a text of at most five characters,
    or back to the text that last started a timer, cancels the pending
    timer and starts nothing. *)
Lemma handler_leaves_one_timer s :
  reachable s →
  active (handle s) =
    if triggers agent s
    then [mkTask (text (buffer s)) (now s + typing_timeout) Sleeping]
    else [].
Proof.
  intros Hr.
  pose proof (cancel_pending_quiet s (reachable_single _ _ s Hr)) as Hq.
  unfold active. rewrite handle_text_change_tasks.
  fold (triggers agent s). destruct (triggers agent s).
  - rewrite filter_app, (quiet_filter _ Hq). by rewrite filter_cons_True.
  - by apply quiet_filter.
Qed.

Lemma after_pause_asked_cases txt (ob : option Buffer) :
  l_asked (after_pause agent txt ob) = []
  ∨ l_asked (after_pause agent txt ob) = [txt].
Proof.
  unfold after_pause. destruct ob as [b|]; [|by left].
  destruct (truthy (text b)); [|by left].
  assert (Hl : l_asked (launch_assistant agent txt (Some b)) = []
               ∨ l_asked (launch_assistant agent txt (Some b)) = [txt]).
  { unfold launch_assistant. destruct agent as [ag|]; [|by left].
    destruct (future_result _ _) as [waited [reply|e]];
      [destruct (truthy reply && _); by right|].
    destruct (is_Exception e); by right. }
  destruct (l_raised _) as [e|]; [|done].
  by destruct (is_Exception e).
Qed.


Lemma handle_keeps_done s j t :
  tasks s !! j = Some t → sleeping t = false →
  tasks (handle s) !! j = Some t.
Proof.
  intros Hj Hdone.
  assert (Hlt : (j < length (tasks (handle s)))%nat).
  { rewrite handle_text_change_tasks. apply lookup_lt_Some in Hj.
    destruct (_ && _); rewrite ?length_app, cancel_pending_length; lia. }
  apply lookup_lt_is_Some in Hlt as [t' Ht']. rewrite Ht'.
  apply handle_lookup in Ht' as [(t0 & Hj0 & _ & _ & Hcase)|(_ & -> & _)].
  - rewrite Hj in Hj0. injection Hj0 as <-.
    destruct Hcase as [->|[Hsl _]]; [done | congruence].
  - apply lookup_lt_Some in Hj. lia.
Qed.


(** X12.  A timer fires only in a wait that reaches its wake-up time: a task
    that a wait adds to the fired ones was sleeping before the wait and
    its sleep ends no later than the wait does. *)
Theorem timer_fires_after_deadline dt s i :
  i ∈ fired (elapse agent dt s) →
  i ∈ fired s
  ∨ ∃ t, tasks s !! i = Some t ∧ sleeping t = true
         ∧ (t_wakes t ≤ now s + dt)%Z.
Proof.
  unfold elapse. destruct (crashed s); [by left|].
  set (s1 := set_now s (now s + dt)).
  assert (H : now (run_due agent (length (tasks s1)) 0 s1) = (now s + dt)%Z
              ∧ (∀ j t, tasks (run_due agent (length (tasks s1)) 0 s1) !! j
                        = Some t →
                        sleeping t = true → tasks s !! j = Some t)
              ∧ (∀ j, j ∈ fired (run_due agent (length (tasks s1)) 0 s1) →
                      j ∈ fired s
                      ∨ ∃ t, tasks s !! j = Some t ∧ sleeping t = true
                             ∧ (t_wakes t ≤ now s + dt)%Z)).
  { apply (run_due_preserves
             (λ s', now s' = (now s + dt)%Z
                    ∧ (∀ j t, tasks s' !! j = Some t → sleeping t = true →
                              tasks s !! j = Some t)
                    ∧ (∀ j, j ∈ fired s' →
                            j ∈ fired s
                            ∨ ∃ t, tasks s !! j = Some t ∧ sleeping t = true
                                   ∧ (t_wakes t ≤ now s + dt)%Z))).
    - intros k t s' (Hnow & Hsame & Hf) _ Hk Hsl Hdue. split_and!.
      + done.
      + intros j tj Hj Hslj.
        apply (wake_lookup k t s' j tj Hk) in Hj as [[_ ->]|[_ Hj]];
          [done | by apply Hsame].
      + intros j Hj. unfold wake in Hj; cbn [fired] in Hj.
        apply elem_of_app in Hj as [Hj|Hj]; [by apply Hf|].
        apply list_elem_of_singleton in Hj as ->. right. exists t.
        split_and!; [by apply Hsame | done | by rewrite <- Hnow].
    - split_and!; [done | done | by left]. }
  intros Hi. by apply H.
Qed.


End Timers.

Section TimerScenarios.
Import Py UserInput Examples Scenarios.



Lemma timer_fires_after_deadline_witness :
  0 ∈ fired (text_changed (Some quick_agent) 2500 (100%Z, hello_world)
               (start EmptyString))
  ∨ ∃ t, tasks (text_changed (Some quick_agent) 2500 (100%Z, hello_world)
                  (start EmptyString)) !! 0 = Some t
         ∧ sleeping t = true
         ∧ (t_wakes t ≤ now (text_changed (Some quick_agent) 2500
                               (100%Z, hello_world) (start EmptyString))
                        + 3000)%Z.
Proof.
  apply (timer_fires_after_deadline (Some quick_agent) 3000).
  vm_compute. left.
Defined.


End TimerScenarios.

(** * Further properties of the prompt *)

Section Prompt.
Import Py UserInput Examples Scenarios.

Variable agent : option Agent.
Variable typing_timeout : Z.

Implicit Types (b : Buffer) (s : Session) (script : list (Z * Buffer)).

Local Abbreviation reachable := (UserInput.reachable agent typing_timeout).
Local Abbreviation handle := (handle_text_change agent typing_timeout).
Local Abbreviation keystroke := (text_changed agent typing_timeout).
Local Abbreviation run := (typing agent typing_timeout).

Lemma handle_keeps_display s :
  buffer (handle s) = buffer s ∧ console (handle s) = console s
  ∧ held (handle s) = held s.
Proof. unfold handle_text_change. by destruct (_ && _). Qed.

Lemma elapse_intact dt s :
  crashed (elapse agent dt s) = None → crashed s = None.
Proof.
  unfold elapse. destruct (crashed s) eqn:Hc; [|done]. by rewrite Hc.
Qed.

Lemma keystroke_buffer ev s :
  crashed (keystroke ev s) = None → buffer (keystroke ev s) = ev.2.
Proof.
  unfold text_changed. destruct (crashed (elapse agent ev.1 s)) eqn:Hc.
  - by rewrite Hc.
  - intros _. destruct (present agent); [|done].
    by destruct (handle_keeps_display (set_buffer (elapse agent ev.1 s) ev.2))
      as [-> _].
Qed.

Lemma run_cons ev script s :
  run (ev :: script) s = run script (keystroke ev s).
Proof. done. Qed.

Lemma typed_cons b ev script : typed b (ev :: script) = typed ev.2 script.
Proof. done. Qed.

(** While the loop is intact the buffer holds what the user typed
    last. *)
Lemma run_buffer script s :
  crashed (run script s) = None →
  buffer (run script s) = typed (buffer s) script.
Proof.
  revert s. induction script as [|ev script IH]; intros s; [done|].
  rewrite run_cons, typed_cons.
  destruct (crashed (keystroke ev s)) as [e|] eqn:Hc.
  - rewrite (typing_crashed _ _ script _ e Hc). by rewrite Hc.
  - intros Hfin. rewrite (IH _ Hfin). by rewrite (keystroke_buffer ev s Hc).
Qed.

(** Only an exception that is not an [Exception] stops the loop. *)
Lemma reachable_crashed s e :
  reachable s → crashed s = Some e → is_Exception e = false.
Proof.
  intros Hr. revert e. revert s Hr.
  apply (reachable_preserves agent typing_timeout
           (λ s, ∀ e, crashed s = Some e → is_Exception e = false)).
  - done.
  - intros s dt _ H. exact H.
  - intros s b _ H. exact H.
  - intros s _ H e.
    destruct (handle_text_change_log agent typing_timeout s) as (Hc & _).
    rewrite Hc. apply H.
  - intros i t s _ _ _ _ _ e. unfold wake; cbn [crashed].
    apply after_pause_raised.
Qed.


Lemma launch_assistant_raised_answer txt (ob : option Buffer) e :
  l_raised (launch_assistant agent txt ob) = Some e →
  ∃ ag, agent = Some ag
        ∧ answer (respond ag (assistant_prompt txt)) = Raise e.
Proof.
  unfold launch_assistant, future_result.
  destruct agent as [ag|]; [|done]. destruct ob as [b|]; [|done].
  destruct (took _ <=? RESULT_TIMEOUT)%Z; [|done].
  destruct (answer _) as [reply|e'] eqn:Ha;
    [by destruct (truthy reply && _)|].
  destruct (is_Exception e'); [done|]. intros [= <-]. by exists ag.
Qed.

Lemma after_pause_raised_answer txt (ob : option Buffer) e :
  l_raised (after_pause agent txt ob) = Some e →
  ∃ ag, agent = Some ag
        ∧ answer (respond ag (assistant_prompt txt)) = Raise e.
Proof.
  unfold after_pause. destruct ob as [b|]; [|done].
  destruct (truthy (text b)); [|done].
  destruct (l_raised (launch_assistant _ _ _)) as [e'|] eqn:Hr;
    [|by rewrite Hr].
  destruct (is_Exception e'); [done|]. rewrite Hr. intros [= <-].
  by apply (launch_assistant_raised_answer txt (Some b)).
Qed.


Lemma start_is_armed default_ :
  armed agent typing_timeout [] [] (start default_).
Proof.
  unfold armed, single_timer. split_and!; try done; intros i t Hi; done.
Qed.

(** Under a burst nothing is printed and the thread is not held. *)
Lemma keystroke_armed_display f a ev s :
  armed agent typing_timeout f a s → (0 ≤ ev.1 < typing_timeout)%Z →
  console (keystroke ev s) = console s ∧ held (keystroke ev s) = held s.
Proof.
  intros Ha Hdt. unfold text_changed.
  rewrite (elapse_armed _ _ _ _ _ _ Ha Hdt).
  destruct Ha as (Hc & _). cbn [crashed set_now]. rewrite Hc.
  destruct (present agent); [|done].
  by destruct (handle_keeps_display
                 (set_buffer (set_now s (now s + ev.1)) ev.2))
    as (_ & -> & ->).
Qed.

Lemma run_armed_display f a script s :
  armed agent typing_timeout f a s →
  Forall (λ ev, (0 ≤ ev.1 < typing_timeout)%Z) script →
  console (run script s) = console s ∧ held (run script s) = held s.
Proof.
  revert s. induction script as [|ev script IH]; intros s Ha Hall; [done|].
  inversion Hall as [|? ? Hev Hrest]; subst. rewrite run_cons.
  destruct (text_changed_armed _ _ _ _ ev s Ha Hev) as [Ha' _].
  destruct (IH _ Ha' Hrest) as [-> ->].
  by apply (keystroke_armed_display f a).
Qed.

(** In a single call: a user who never pauses for as long as the idle threshold, and
    ends the prompt as quickly, gets no assistance at all: no timer
    fires, the advisor is not asked, nothing is printed, the thread is
    never held, and the call returns the typed text on submission and
    the default otherwise. *)
Lemma no_pause_no_assistance prompt default_ script last ending :
  Forall (λ ev, (0 ≤ ev.1 < typing_timeout)%Z) script →
  (0 ≤ last < typing_timeout)%Z →
  let r := get_user_input_async prompt default_ agent typing_timeout
             script last ending in
  r.1 = Return (match ending with
                | Submit => text (typed (seeded default_) script)
                | _ => default_
                end)
  ∧ fired r.2 = [] ∧ advised r.2 = [] ∧ console r.2 = [] ∧ held r.2 = 0%Z.
Proof.
  intros Hall Hlast r. unfold r, get_user_input_async.
  pose proof (typing_armed _ _ _ _ script _ (start_is_armed default_) Hall)
    as Ha.
  destruct (run_armed_display _ _ script _ (start_is_armed default_) Hall)
    as [Hcon Hheld].
  rewrite (elapse_armed _ _ _ _ _ _ Ha Hlast).
  pose proof Ha as (Hc & Hf & Had & _). cbn [crashed set_now]. rewrite Hc.
  pose proof (run_buffer script (start default_) Hc) as Hbuf.
  destruct ending; cbn [fst snd fired advised console held buffer set_now];
    rewrite ?Hbuf, ?Hf, ?Had, ?Hcon, ?Hheld; done.
Qed.

End Prompt.

(** * Several prompts in one process *)

Section FirstPrompt.
Import Py UserInput.

Variable agent : option Agent.
Variable typing_timeout : Z.

Implicit Types (p : Process) (s : Session).

Local Abbreviation mirrors := (UserInput.mirrors agent typing_timeout).

Lemma with_closure_detach s :
  with_closure (mkClosure agent typing_timeout (typing_timer s) (current_text s))
    (detach s) = s.
Proof. by destruct s. Qed.

Lemma mirrors_task_agent p s i t :
  mirrors p s → tasks s !! i = Some t → task_agent p i = agent.
Proof.
  intros (_ & Ho & Hh & Hnone) Hi. unfold task_agent. rewrite Ho, Hh.
  rewrite lookup_replicate_2 by (by eapply lookup_lt_Some).
  destruct (present agent) eqn:Hp; [done|].
  by rewrite (Hnone eq_refl) in Hi.
Qed.

Lemma mirrors_wake p s i t :
  mirrors p s → tasks s !! i = Some t →
  mirrors (mkProcess (handlers p) (owners p)
             (wake (task_agent p i) i t (loop p)))
          (wake agent i t s).
Proof.
  intros Hm Hi. rewrite (mirrors_task_agent p s i t Hm Hi).
  destruct Hm as (Hl & Ho & Hh & Hnone). split_and!.
  - cbn [loop]. by rewrite Hl.
  - cbn [owners]. rewrite Ho. unfold wake; cbn [tasks].
    by rewrite length_insert.
  - done.
  - intros Hp. by rewrite (Hnone Hp) in Hi.
Qed.

Lemma mirrors_run_due n i p s :
  mirrors p s → mirrors (loop_run_due n i p) (run_due agent n i s).
Proof.
  revert i p s. induction n as [|n IH]; intros i p s Hm; [done|].
  pose proof Hm as (Hl & _). cbn [loop_run_due run_due].
  rewrite Hl. cbn [crashed tasks now detach].
  destruct (crashed s); [done|].
  destruct (tasks s !! i) as [t|] eqn:Hi; [|done].
  destruct (sleeping t && _); [|by apply IH].
  apply IH. rewrite <- Hl. by apply mirrors_wake.
Qed.

Lemma mirrors_elapse dt p s :
  mirrors p s → mirrors (loop_elapse dt p) (elapse agent dt s).
Proof.
  intros Hm. pose proof Hm as (Hl & Ho & Hh & Hnone).
  unfold loop_elapse, elapse. rewrite Hl. cbn [crashed detach].
  destruct (crashed s); [done|].
  cbn [loop tasks set_now now]. apply mirrors_run_due.
  split_and!; try done.
Qed.

Lemma mirrors_text_changed ev p s :
  mirrors p s →
  mirrors (loop_text_changed ev p) (text_changed agent typing_timeout ev s).
Proof.
  intros Hm. unfold loop_text_changed, text_changed.
  pose proof (mirrors_elapse ev.1 p s Hm) as Hm1.
  set (p1 := loop_elapse ev.1 p) in *. set (s1 := elapse agent ev.1 s) in *.
  pose proof Hm1 as (Hl & Ho & Hh & Hnone).
  rewrite Hl. cbn [crashed detach].
  destruct (crashed s1); [done|].
  unfold buffer_changed, with_buffer, on_text_changed. cbn [handlers].
  rewrite Hh, ?Hl.
  destruct (present agent) eqn:Hp.
  - cbn [length call_handlers handlers lookup list_lookup].
    unfold call_handler. cbn [loop handlers owners].
    change (set_buffer (detach s1) ev.2) with (detach (set_buffer s1 ev.2)).
    change (typing_timer s1) with (typing_timer (set_buffer s1 ev.2)).
    change (current_text s1) with (current_text (set_buffer s1 ev.2)).
    rewrite with_closure_detach. cbn [c_agent c_timeout].
    set (s2 := set_buffer s1 ev.2).
    split_and!; try done.
    + cbn [owners]. rewrite Ho.
      change (tasks s1) with (tasks s2).
      rewrite <- replicate_add. f_equal.
      assert (length (tasks s2)
              ≤ length (tasks (handle_text_change agent typing_timeout s2)))%nat;
        [|lia].
      rewrite handle_text_change_tasks.
      destruct (_ && _); rewrite ?length_app, cancel_pending_length; lia.
    + by rewrite Hp.
    + by rewrite Hp.
  - cbn [length call_handlers].
    split_and!; try done; by rewrite Hp.
Qed.

Lemma mirrors_typing script p s :
  mirrors p s →
  mirrors (loop_typing script p) (typing agent typing_timeout script s).
Proof.
  revert p s. induction script as [|ev script IH]; intros p s Hm; [done|].
  apply (IH (loop_text_changed ev p)). by apply mirrors_text_changed.
Qed.

Lemma mirrors_start default_ :
  mirrors (attach agent typing_timeout default_ fresh) (start default_).
Proof.
  unfold attach, fresh. split_and!; done.
Qed.

(** The first prompt of a process is the single call: the same
    result, and the same loop when the call returns. *)
Lemma first_prompt_is_single_call prompt default_ script last ending :
  let q := prompt_call prompt default_ agent typing_timeout script last
             ending fresh in
  let r := get_user_input_async prompt default_ agent typing_timeout script
             last ending in
  q.1 = r.1 ∧ loop q.2 = detach r.2.
Proof.
  intros q r. unfold q, r, prompt_call, get_user_input_async.
  pose proof (mirrors_elapse last _ _
                (mirrors_typing script _ _ (mirrors_start default_))) as Hm.
  set (p1 := loop_elapse last _) in *. set (s := elapse agent last _) in *.
  destruct Hm as (Hl & Ho & Hh & Hnone). rewrite Hl. cbn [crashed detach].
  destruct (crashed s) eqn:Hc; [done|].
  destruct ending; cbn [fst snd loop]; try done.
  unfold cancel_own_timer. rewrite Hl.
  cbn [loop buffer detach tasks now console fired advised held crashed].
  split; [done|]. rewrite Hc. unfold detach; cbn. f_equal.
  rewrite Hh. destruct (present agent) eqn:Hp; [done|].
  cbn. rewrite (Hnone eq_refl). by destruct (typing_timer s).
Qed.

End FirstPrompt.

Section SharedLoop.
Import Py UserInput.

Implicit Types (p : Process) (c : Closure) (t : Task) (ts : list Task).

(** *** What one handler does to the process *)

Lemma cancel_pending_at timer ts j :
  cancel_pending timer ts !! j =
    (λ t, if bool_decide (timer = Some j) && sleeping t then cancel t else t)
      <$> ts !! j.
Proof.
  unfold cancel_pending. destruct timer as [i|]; [|by destruct (ts !! j)].
  destruct (decide (i = j)) as [->|Hne].
  - rewrite bool_decide_eq_true_2 by done.
    destruct (ts !! j) as [tj|] eqn:Hj; [|done]. unfold done_.
    destruct (sleeping tj) eqn:Hsl; cbn.
    + rewrite list_lookup_insert_eq by (by eapply lookup_lt_Some).
      by rewrite Hsl.
    + rewrite Hj. cbn. by rewrite Hsl.
  - rewrite bool_decide_eq_false_2 by congruence.
    destruct (ts !! i) as [ti|]; [|by destruct (ts !! j)].
    destruct (negb (done_ ti)); [|by destruct (ts !! j)].
    rewrite list_lookup_insert_ne by done. by destruct (ts !! j).
Qed.

Lemma call_handler_tasks k c p :
  tasks (loop (call_handler k c p)) =
    (cancel_pending (c_timer c) (tasks (loop p))
     ++ (if triggering p c then [new_task p c] else []))%list.
Proof.
  unfold call_handler; cbn [loop detach tasks].
  rewrite handle_text_change_tasks. unfold triggering, triggers.
  cbn [buffer current_text typing_timer tasks now with_closure].
  destruct (_ && _); [done | by rewrite app_nil_r].
Qed.

Lemma call_handler_handlers k c p :
  handlers (call_handler k c p) =
    <[k := mkClosure (c_agent c) (c_timeout c)
             (if triggering p c then Some (length (tasks (loop p)))
              else c_timer c)
             (if triggering p c then text (buffer (loop p)) else c_text c)]>
      (handlers p).
Proof.
  unfold call_handler; cbn [handlers]. unfold handle_text_change.
  unfold triggering, triggers.
  cbn [buffer current_text typing_timer tasks now with_closure].
  destruct (_ && _); cbn; by rewrite ?cancel_pending_length.
Qed.

Lemma call_handler_owners k c p :
  owners (call_handler k c p) =
    (owners p ++ (if triggering p c then [k] else []))%list.
Proof.
  unfold call_handler; cbn [owners]. f_equal.
  rewrite handle_text_change_tasks. unfold triggering, triggers.
  cbn [buffer current_text typing_timer tasks now with_closure].
  destruct (_ && _); rewrite ?length_app, cancel_pending_length; cbn [length].
  - by replace (length (tasks (loop p)) + 1 - length (tasks (loop p)))%nat
      with 1%nat by lia.
  - by rewrite Nat.sub_diag.
Qed.

Lemma call_handler_shared k c p :
  buffer (loop (call_handler k c p)) = buffer (loop p)
  ∧ now (loop (call_handler k c p)) = now (loop p)
  ∧ crashed (loop (call_handler k c p)) = crashed (loop p)
  ∧ console (loop (call_handler k c p)) = console (loop p)
  ∧ fired (loop (call_handler k c p)) = fired (loop p)
  ∧ advised (loop (call_handler k c p)) = advised (loop p)
  ∧ held (loop (call_handler k c p)) = held (loop p).
Proof.
  unfold call_handler; cbn [loop detach]. unfold handle_text_change.
  by destruct (_ && _).
Qed.

Lemma triggering_buffer p p' c :
  buffer (loop p) = buffer (loop p') → triggering p c = triggering p' c.
Proof.
  intros Hb. unfold triggering, triggers.
  cbn [buffer current_text with_closure]. by rewrite Hb.
Qed.

(** *** Every sleeping task is the timer of its owner *)

Lemma owned_call_handler k c p :
  owned p → handlers p !! k = Some c → owned (call_handler k c p).
Proof.
  intros (Hlen & Hsleep & Htimer) Hk.
  assert (Hklt : (k < length (handlers p))%nat) by (by eapply lookup_lt_Some).
  unfold owned.
  rewrite call_handler_tasks, call_handler_handlers, call_handler_owners.
  split_and!.
  - rewrite !length_app, cancel_pending_length, Hlen.
    by destruct (triggering p c).
  - intros i t Hi Hsl. apply lookup_app_Some in Hi as [Hi|[Hge Hi]].
    + rewrite cancel_pending_at in Hi.
      destruct (tasks (loop p) !! i) as [t0|] eqn:Hi0; [|done].
      injection Hi as <-.
      destruct (bool_decide_reflect (c_timer c = Some i)) as [Hown|Hother];
        destruct (sleeping t0) eqn:Hsl0; cbn [andb] in Hsl;
        try done; try congruence.
      destruct (Hsleep i t0 Hi0 Hsl0) as (k0 & c0 & Ho & Hh & Ht).
      exists k0, c0. split_and!; [|by rewrite list_lookup_insert_ne by congruence|done].
      apply lookup_app_l_Some. done.
    + rewrite cancel_pending_length in Hge, Hi.
      destruct (triggering p c); [|by rewrite lookup_nil in Hi].
      apply list_lookup_singleton_Some in Hi as [Hi <-].
      assert (i = length (tasks (loop p))) as -> by lia.
      eexists k, _. split_and!.
      * rewrite lookup_app_r by lia. rewrite Hlen, Nat.sub_diag. done.
      * by apply list_lookup_insert_eq.
      * done.
  - intros k' c' i Hk' Ht.
    destruct (decide (k = k')) as [<-|Hne].
    + rewrite list_lookup_insert_eq in Hk' by done. injection Hk' as <-.
      cbn [c_timer] in Ht. destruct (triggering p c).
      * injection Ht as <-. rewrite lookup_app_r by lia.
        by rewrite Hlen, Nat.sub_diag.
      * apply lookup_app_l_Some. by apply (Htimer k c).
    + rewrite list_lookup_insert_ne in Hk' by done.
      apply lookup_app_l_Some. by apply (Htimer k' c').
Qed.

Lemma owned_call_handlers n k p :
  owned p → owned (call_handlers n k p).
Proof.
  revert k p. induction n as [|n IH]; intros k p Ho; [done|].
  cbn. destruct (handlers p !! k) as [c|] eqn:Hk; [|done].
  apply IH. by apply owned_call_handler.
Qed.

Lemma owned_tasks_shrink p ts' :
  owned p → length ts' = length (tasks (loop p)) →
  (∀ i t, ts' !! i = Some t → sleeping t = true →
          tasks (loop p) !! i = Some t) →
  ∀ s', tasks s' = ts' → owned (mkProcess (handlers p) (owners p) s').
Proof.
  intros (Hlen & Hsleep & Htimer) Hlen' Hsub s' Hs'. unfold owned.
  cbn [loop owners handlers]. rewrite Hs'. split_and!; [congruence| |done].
  intros i t Hi Hsl. by apply (Hsleep i t (Hsub i t Hi Hsl)).
Qed.

Lemma owned_wake a i t p :
  owned p → tasks (loop p) !! i = Some t →
  owned (mkProcess (handlers p) (owners p) (wake a i t (loop p))).
Proof.
  intros Ho Hi.
  apply (owned_tasks_shrink p (<[i := finish t]> (tasks (loop p))));
    [done | apply length_insert | | done].
  intros j tj Hj Hsl. destruct (decide (i = j)) as [->|Hne].
  - rewrite list_lookup_insert_eq in Hj by (by eapply lookup_lt_Some).
    by injection Hj as <-.
  - by rewrite list_lookup_insert_ne in Hj.
Qed.

Lemma owned_run_due n i p : owned p → owned (loop_run_due n i p).
Proof.
  revert i p. induction n as [|n IH]; intros i p Ho; [done|].
  cbn. destruct (crashed (loop p)); [done|].
  destruct (tasks (loop p) !! i) as [t|] eqn:Hi; [|done].
  destruct (sleeping t && _); apply IH; [by apply owned_wake | done].
Qed.

Lemma owned_cancel_own_timer k p : owned p → owned (cancel_own_timer k p).
Proof.
  intros Ho. unfold cancel_own_timer.
  eapply (owned_tasks_shrink p); [done | apply cancel_pending_length | | done].
  intros i t Hi Hsl. rewrite cancel_pending_at in Hi.
  destruct (tasks (loop p) !! i) as [t0|]; [|done]. injection Hi as <-.
  destruct (bool_decide _ && sleeping t0) eqn:Hcase; [done|done].
Qed.

Lemma owned_attach agent typing_timeout default_ p :
  owned p → owned (attach agent typing_timeout default_ p).
Proof.
  intros (Hlen & Hsleep & Htimer). unfold owned, attach.
  cbn [loop owners handlers tasks set_buffer]. split_and!; [done| |].
  - intros i t Hi Hsl. destruct (Hsleep i t Hi Hsl) as (k & c & ? & ? & ?).
    exists k, c. split_and!; [done | by apply lookup_app_l_Some | done].
  - intros k c i Hk Ht. apply lookup_app_Some in Hk as [Hk|[_ Hk]];
      [by apply (Htimer k c)|].
    destruct (present agent); [|by rewrite lookup_nil in Hk].
    apply list_lookup_singleton_Some in Hk as [_ <-]. done.
Qed.

Lemma in_process_owned p : in_process p → owned p.
Proof.
  induction 1 as [|p gap _ IH|p a T d _ IH|p dt _ IH|p b _ IH|p k _ IH].
  - unfold owned, fresh. split_and!; [done| |]; intros ? ? ? H; done.
  - exact IH.
  - by apply owned_attach.
  - unfold loop_elapse. destruct (crashed (loop p)); [done|].
    by apply owned_run_due.
  - by apply owned_call_handlers.
  - by apply owned_cancel_own_timer.
Qed.

(** *** One timer for every handler *)

Lemma handled_start p0 : owned p0 → handled p0 0 p0.
Proof.
  intros Ho. unfold handled. split_and!; [done | done | done | done | | |].
  - rewrite take_0, filter_nil. cbn. lia.
  - intros i t Hi Hge. apply lookup_lt_Some in Hi. lia.
  - intros i t Hi _ Hsl. destruct Ho as (_ & Hsleep & _).
    destruct (Hsleep i t Hi Hsl) as (k & c & Hk & _). exists k.
    split; [lia | done].
Qed.

Lemma handled_step p0 k p c :
  handled p0 k p → handlers p !! k = Some c →
  handled p0 (S k) (call_handler k c p).
Proof.
  intros (Ho & Hb & Hlen & Hrest & Hcount & Hnew & Hold) Hk.
  pose proof (owned_call_handler k c p Ho Hk) as Ho'.
  pose proof Ho as (Holen & Hsleep & Htimer).
  assert (Hk0 : handlers p0 !! k = Some c) by (by rewrite <- Hrest).
  assert (Htrig : triggering p c = triggering p0 c)
    by (by apply triggering_buffer).
  unfold handled. split_and!; [done| | | | | |].
  - by destruct (call_handler_shared k c p) as (-> & _).
  - by rewrite call_handler_handlers, length_insert.
  - intros j Hj. rewrite call_handler_handlers.
    rewrite list_lookup_insert_ne by lia. apply Hrest. lia.
  - rewrite call_handler_tasks, length_app, cancel_pending_length, Hcount.
    rewrite (take_S_r _ _ _ Hk0), filter_app, length_app, Htrig.
    destruct (triggering p0 c) eqn:Ht.
    + rewrite (filter_cons_True _ c []) by done. cbn. lia.
    + rewrite (filter_cons_False _ c []) by congruence. cbn. lia.
  - intros i t Hi Hge. rewrite call_handler_tasks in Hi.
    rewrite call_handler_owners.
    apply lookup_app_Some in Hi as [Hi|[Hge' Hi]].
    + rewrite cancel_pending_at in Hi.
      destruct (tasks (loop p) !! i) as [t0|] eqn:Hi0; [|done].
      injection Hi as <-.
      destruct (Hnew i t0 Hi0 Hge) as (Hsl0 & k' & Hk' & Hown).
      destruct (bool_decide_reflect (c_timer c = Some i)) as [Hmine|_].
      * pose proof (Htimer k c i Hk Hmine) as Hown'.
        rewrite Hown in Hown'. injection Hown' as ->. lia.
      * cbn [andb]. split; [done|]. exists k'. split; [lia|].
        by apply lookup_app_l_Some.
    + rewrite cancel_pending_length in Hge', Hi.
      destruct (triggering p c); [|by rewrite lookup_nil in Hi].
      apply list_lookup_singleton_Some in Hi as [Hi <-].
      split; [done|]. exists k. split; [lia|].
      rewrite lookup_app_r by lia.
      replace (i - length (owners p))%nat with 0%nat by lia. done.
  - intros i t Hi Hlt Hsl. rewrite call_handler_tasks in Hi.
    rewrite call_handler_owners.
    apply lookup_app_Some in Hi as [Hi|[Hge' Hi]].
    + rewrite cancel_pending_at in Hi.
      destruct (tasks (loop p) !! i) as [t0|] eqn:Hi0; [|done].
      injection Hi as <-.
      destruct (sleeping t0) eqn:Hsl0;
        [|by destruct (bool_decide _); cbn in Hsl; congruence].
      destruct (Hold i t0 Hi0 Hlt Hsl0) as (j & Hj & Hown).
      destruct (bool_decide_reflect (c_timer c = Some i)) as [Hmine|Hother];
        [done|].
      exists j. split; [|by apply lookup_app_l_Some].
      destruct (decide (j = k)) as [->|]; [|lia].
      destruct (Hsleep i t0 Hi0 Hsl0) as (k0 & c0 & Hown0 & Hc0 & Ht0).
      rewrite Hown in Hown0. injection Hown0 as <-.
      rewrite Hk in Hc0. injection Hc0 as <-. done.
    + rewrite cancel_pending_length in Hge'.
      rewrite Hcount in Hge'. lia.
Qed.

Lemma handled_all p0 n k p :
  handled p0 k p → (k + n = length (handlers p0))%nat →
  handled p0 (length (handlers p0)) (call_handlers n k p).
Proof.
  revert k p. induction n as [|n IH]; intros k p Hh Hkn.
  - by replace (length (handlers p0)) with k by lia.
  - cbn. pose proof Hh as (_ & _ & Hlen & _).
    destruct (handlers p !! k) as [c|] eqn:Hk.
    + apply IH; [by apply handled_step | lia].
    + apply lookup_ge_None in Hk. lia.
Qed.

Lemma filter_all_sleeping ts :
  (∀ i t, ts !! i = Some t → sleeping t = true) →
  filter (λ t, sleeping t = true) ts = ts.
Proof.
  induction ts as [|t ts IH]; intros Hall; [done|].
  rewrite filter_cons_True by (by apply (Hall 0)).
  f_equal. apply IH. intros i t' Hi. by apply (Hall (S i)).
Qed.

(** X9.  A keystroke in any state of a process: every handler attached
    to the buffer whose condition holds starts a timer of its own, and
    the timers active afterwards are exactly those, one for each such
    handler; none of the timers that were pending before is still
    pending. *)
Theorem keystroke_starts_timer_per_handler p b :
  in_process p →
  let p' := buffer_changed b p in
  length (active (loop p'))
  = length (filter (λ c, triggering (with_buffer b p) c = true) (handlers p))
  ∧ (∀ i t, tasks (loop p') !! i = Some t → sleeping t = true →
            (length (tasks (loop p)) ≤ i)%nat)
  ∧ length (handlers p') = length (handlers p).
Proof.
  intros Hin p'. set (p0 := with_buffer b p).
  assert (Ho : owned p0) by (by apply in_process_owned in Hin).
  pose proof (handled_all p0 (length (handlers p0)) 0 p0
                (handled_start p0 Ho) eq_refl)
    as (Ho' & _ & Hlen & _ & Hcount & Hnew & Hold).
  change (call_handlers (length (handlers p0)) 0 p0) with p' in *.
  rewrite firstn_all in Hcount.
  assert (Hnone : ∀ i t, tasks (loop p') !! i = Some t → sleeping t = true →
                         (length (tasks (loop p0)) ≤ i)%nat).
  { intros i t Hi Hsl.
    destruct (decide (i < length (tasks (loop p0)))%nat) as [Hlt|]; [|lia].
    destruct (Hold i t Hi Hlt Hsl) as (j & Hj & Hown).
    destruct Ho' as (_ & Hsleep & _).
    destruct (Hsleep i t Hi Hsl) as (k0 & c0 & Hown0 & Hc0 & _).
    rewrite Hown in Hown0. injection Hown0 as <-.
    apply lookup_lt_Some in Hc0. lia. }
  split_and!; [|exact Hnone|exact Hlen].
  unfold active.
  rewrite <- (take_drop (length (tasks (loop p0))) (tasks (loop p'))).
  rewrite filter_app, quiet_filter, filter_all_sleeping.
  - cbn [app]. rewrite length_drop, Hcount. change (handlers p0) with (handlers p).
    lia.
  - intros i t Hi. rewrite lookup_drop in Hi.
    by destruct (Hnew _ t Hi ltac:(lia)).
  - intros i t Hi. apply lookup_take_Some in Hi as [Hi Hlt].
    destruct (sleeping t) eqn:Hsl; [|done].
    specialize (Hnone i t Hi Hsl). lia.
Qed.

Lemma sleeping_indices ts :
  ∃ I : list nat,
    NoDup I ∧ length I = length (filter (λ t, sleeping t = true) ts)
    ∧ ∀ i, i ∈ I → ∃ t, ts !! i = Some t ∧ sleeping t = true.
Proof.
  induction ts as [|a ts (I & Hnd & Hlen & Hin)].
  { exists []. split_and!; [constructor | done |]. intros i Hi. by inversion Hi. }
  assert (Hshift : ∀ i, i ∈ S <$> I →
                        ∃ t, (a :: ts) !! i = Some t ∧ sleeping t = true).
  { intros i Hi. apply list_elem_of_fmap in Hi as (i' & -> & Hi').
    by apply Hin. }
  assert (HndS : NoDup (S <$> I)) by (by apply (NoDup_fmap_2 S)).
  destruct (sleeping a) eqn:Ha.
  - exists (0%nat :: (S <$> I)). split_and!.
    + constructor; [|done]. intros Hi.
      by apply list_elem_of_fmap in Hi as (i' & ? & _).
    + rewrite filter_cons_True by done. cbn. by rewrite length_fmap, Hlen.
    + intros i Hi. apply elem_of_cons in Hi as [-> | Hi]; [|by apply Hshift].
      by exists a.
  - exists (S <$> I). split_and!; [done | | done].
    rewrite filter_cons_False by (by rewrite Ha). by rewrite length_fmap.
Qed.

Lemma length_omap_le {A B} (f : A → option B) (l : list A) :
  (length (omap f l) ≤ length l)%nat.
Proof.
  induction l as [|a l IH]; [done|]. cbn. destruct (f a); cbn; lia.
Qed.

(** X23.  What holds of the timers in every state of a process: each
    active timer is the [typing_timer] of a handler attached to the
    buffer, so there are at most as many active timers as there are
    attached handlers, one for each at most. *)
Theorem timers_bounded_by_handlers p :
  in_process p →
  (length (active (loop p)) ≤ length (handlers p))%nat
  ∧ ∀ i t, tasks (loop p) !! i = Some t → sleeping t = true →
      ∃ k c, handlers p !! k = Some c ∧ c_timer c = Some i.
Proof.
  intros Hin. apply in_process_owned in Hin as (_ & Hsleep & _).
  assert (Hown : ∀ i t, tasks (loop p) !! i = Some t → sleeping t = true →
                        ∃ k c, handlers p !! k = Some c ∧ c_timer c = Some i).
  { intros i t Hi Hsl. destruct (Hsleep i t Hi Hsl) as (k & c & _ & Hc & Ht).
    by exists k, c. }
  split; [|exact Hown].
  destruct (sleeping_indices (tasks (loop p))) as (I & Hnd & Hlen & HI).
  unfold active. rewrite <- Hlen.
  etrans; [|apply (length_omap_le c_timer)].
  apply submseteq_length, NoDup_submseteq; [done|].
  intros i Hi. destruct (HI i Hi) as (t & Ht & Hsl).
  destruct (Hown i t Ht Hsl) as (k & c & Hc & Hti).
  apply list_elem_of_omap. exists c. split; [|done].
  by apply list_elem_of_lookup_2 in Hc.
Qed.

End SharedLoop.

Section Handlers.
Import Py UserInput.

Implicit Types (p : Process) (c : Closure).

Lemma call_handler_kinds k c p :
  handlers p !! k = Some c →
  closure_kind <$> handlers (call_handler k c p)
  = closure_kind <$> handlers p.
Proof.
  intros Hk. rewrite call_handler_handlers, list_fmap_insert.
  apply list_insert_id. by rewrite list_lookup_fmap, Hk.
Qed.

Lemma call_handlers_kinds n k p :
  closure_kind <$> handlers (call_handlers n k p)
  = closure_kind <$> handlers p.
Proof.
  revert k p. induction n as [|n IH]; intros k p; [done|].
  cbn. destruct (handlers p !! k) as [c|] eqn:Hk; [|done].
  by rewrite IH, call_handler_kinds.
Qed.

Lemma loop_run_due_handlers n i p :
  handlers (loop_run_due n i p) = handlers p.
Proof.
  revert i p. induction n as [|n IH]; intros i p; [done|].
  cbn. destruct (crashed (loop p)); [done|].
  destruct (tasks (loop p) !! i) as [t|]; [|done].
  destruct (sleeping t && _); by rewrite IH.
Qed.

Lemma loop_elapse_handlers dt p : handlers (loop_elapse dt p) = handlers p.
Proof.
  unfold loop_elapse. destruct (crashed (loop p)); [done|].
  by rewrite loop_run_due_handlers.
Qed.

Lemma loop_text_changed_kinds ev p :
  closure_kind <$> handlers (loop_text_changed ev p)
  = closure_kind <$> handlers p.
Proof.
  unfold loop_text_changed. destruct (crashed _).
  - by rewrite loop_elapse_handlers.
  - unfold buffer_changed, on_text_changed. rewrite call_handlers_kinds.
    cbn [handlers with_buffer]. by rewrite loop_elapse_handlers.
Qed.

Lemma loop_typing_kinds script p :
  closure_kind <$> handlers (loop_typing script p)
  = closure_kind <$> handlers p.
Proof.
  revert p. induction script as [|ev script IH]; intros p; [done|].
  cbn. change (foldl _ ?q script) with (loop_typing script q).
  by rewrite IH, loop_text_changed_kinds.
Qed.


(** *** A process without handlers *)

Lemma plain_elapse dt p :
  handlers p = [] → tasks (loop p) = [] → crashed (loop p) = None →
  loop_elapse dt p
  = mkProcess [] (owners p) (set_now (loop p) (now (loop p) + dt)).
Proof.
  intros Hh Ht Hc. unfold loop_elapse. rewrite Hc, Hh.
  cbn [loop tasks set_now]. by rewrite Ht.
Qed.

Lemma plain_text_changed ev p :
  handlers p = [] → tasks (loop p) = [] → crashed (loop p) = None →
  loop_text_changed ev p
  = mkProcess [] (owners p)
      (set_buffer (set_now (loop p) (now (loop p) + ev.1)) ev.2).
Proof.
  intros Hh Ht Hc. unfold loop_text_changed.
  rewrite (plain_elapse _ _ Hh Ht Hc). cbn [loop crashed set_now].
  by rewrite Hc.
Qed.

Lemma plain_typing script p :
  handlers p = [] → tasks (loop p) = [] → crashed (loop p) = None →
  let p' := loop_typing script p in
  handlers p' = [] ∧ tasks (loop p') = [] ∧ crashed (loop p') = None
  ∧ buffer (loop p') = typed (buffer (loop p)) script
  ∧ console (loop p') = console (loop p)
  ∧ fired (loop p') = fired (loop p)
  ∧ advised (loop p') = advised (loop p)
  ∧ held (loop p') = held (loop p).
Proof.
  revert p. induction script as [|ev script IH]; intros p Hh Ht Hc; [done|].
  cbn zeta. change (loop_typing (ev :: script) p)
    with (loop_typing script (loop_text_changed ev p)).
  rewrite (plain_text_changed ev p Hh Ht Hc).
  set (p1 := mkProcess [] (owners p)
               (set_buffer (set_now (loop p) (now (loop p) + ev.1)) ev.2)).
  destruct (IH p1 eq_refl Ht Hc) as (H1 & H2 & H3 & H4 & H5 & H6 & H7 & H8).
  by split_and!.
Qed.


End Handlers.

Section Prompts.
Import Py UserInput.

Implicit Types (p : Process).

Lemma loop_text_changed_in_process ev p :
  in_process p → in_process (loop_text_changed ev p).
Proof.
  intros Hp. unfold loop_text_changed.
  pose proof (proc_elapse p ev.1 Hp) as Hp1.
  destruct (crashed _); [done|]. by apply proc_keystroke.
Qed.

Lemma loop_typing_in_process script p :
  in_process p → in_process (loop_typing script p).
Proof.
  revert p. induction script as [|ev script IH]; intros p Hp; [done|].
  apply (IH (loop_text_changed ev p)). by apply loop_text_changed_in_process.
Qed.

Lemma prompt_call_in_process prompt default_ agent typing_timeout script last
    ending p :
  in_process p →
  in_process (prompt_call prompt default_ agent typing_timeout script last
                ending p).2.
Proof.
  intros Hp. unfold prompt_call.
  set (p1 := loop_elapse last _).
  assert (Hp1 : in_process p1)
    by (by apply proc_elapse, loop_typing_in_process, proc_attach).
  destruct (crashed (loop p1)); [done|].
  destruct ending; cbn [snd]; [by apply proc_submit | done | done].
Qed.


(** X21.  In the first prompt of a process, a call that ends by
    submission leaves no debounce timer active: the pending timer, if
    any, is cancelled before the call returns. *)
Theorem first_prompt_submit_cancels prompt default_ agent typing_timeout
    script last response :
  let q := prompt_call prompt default_ agent typing_timeout script last
             Submit fresh in
  q.1 = Return response → active (loop q.2) = [].
Proof.
  intros q.
  destruct (first_prompt_is_single_call agent typing_timeout prompt default_
              script last Submit) as [H1 H2].
  unfold q. rewrite H1, H2. intros Hr.
  change (active (detach ?s)) with (active s).
  apply submit_cancels_timer.
  unfold get_user_input_async in Hr.
  by destruct (crashed (elapse agent last _)).
Qed.

End Prompts.

Section ProcessScenarios.
Import Py UserInput Examples Scenarios.

(** C2 at a failing input.  A process prompts twice with the same
    agent.  In the first prompt the user types [hello world] and submits.
    In the second the user types [hello w]: the buffer calls the handler
    of the first call, which is still attached, and the handler of the
    second, each starts a timer, both are active at once, and after the
    pause both fire and the advisor is asked twice, where C2 allows one
    active timer and one invocation.  A second prompt without an agent
    still gets the first call's timer and its question; and a timer left
    by an interrupted prompt fires during the next one. *)
Theorem second_prompt_doubles_timers :
  length (handlers second_prompt) = 2
  ∧ active (loop second_prompt)
    = [mkTask "hello w" 3800 Sleeping; mkTask "hello w" 3800 Sleeping]
  ∧ fired (loop (loop_elapse 3000 second_prompt)) = [1; 2]
  ∧ advised (loop (loop_elapse 3000 second_prompt)) = ["hello w"; "hello w"]
  ∧ active (loop second_prompt_without_agent)
    = [mkTask "hello w" 3800 Sleeping]
  ∧ advised (loop (loop_elapse 3000 second_prompt_without_agent))
    = ["hello w"]
  ∧ active (loop after_interrupt) = [mkTask "hello world" 2600 Sleeping]
  ∧ advised (loop (prompt_call "> " "draft" None 2500 [] 3000 Submit
                     after_interrupt).2)
    = ["hello world"].
Proof. by vm_compute. Qed.

Lemma in_process_after_first_prompt : in_process after_first_prompt.
Proof. apply proc_idle, prompt_call_in_process, proc_fresh. Qed.

Lemma keystroke_starts_timer_per_handler_witness :
  length (active (loop (buffer_changed hello_w
                          (attach (Some quick_agent) 2500 EmptyString
                             after_first_prompt))))
  = 2.
Proof.
  destruct (keystroke_starts_timer_per_handler
              (attach (Some quick_agent) 2500 EmptyString after_first_prompt)
              hello_w) as (H & _).
  - apply proc_attach, in_process_after_first_prompt.
  - rewrite H. reflexivity.
Defined.

Lemma timers_bounded_by_handlers_witness :
  (length (active (loop second_prompt)) ≤ 2)%nat.
Proof.
  apply (timers_bounded_by_handlers second_prompt).
  apply loop_typing_in_process, proc_attach, in_process_after_first_prompt.
Defined.


Lemma first_prompt_submit_cancels_witness :
  active (loop (prompt_call "> " "fallback" (Some quick_agent) 2500
                  [(100%Z, hello_world)] 100 Submit fresh).2) = [].
Proof.
  apply (first_prompt_submit_cancels "> " "fallback" (Some quick_agent) 2500
           [(100%Z, hello_world)] 100 "hello world").
  vm_compute. reflexivity.
Defined.


End ProcessScenarios.

Section PromptScenarios.
Import Py UserInput Examples Scenarios.


End PromptScenarios.

Section Display.
Import Py UserInput Examples Scenarios.

Implicit Types (ag : Agent) (b : Buffer).

(** X18.  No suggestion is ever shown.  When the advisor answers in
    time with a text that is not empty, the indicator is cleared and
    [pprint] is called with the keyword [end], which it does not take:
    the [TypeError] is caught and its message is printed in place of the
    answer; nothing of it leaves [launch_assistant]. *)
Theorem suggestion_never_shown (agent : option Agent) txt
    (ob : option Buffer) :
  Forall (λ o, is_suggestion o = false)
    (l_console (launch_assistant agent txt ob))
  ∧ ∀ ag b reply,
      agent = Some ag → ob = Some b →
      (took (respond ag (assistant_prompt txt)) ≤ RESULT_TIMEOUT)%Z →
      answer (respond ag (assistant_prompt txt)) = Return reply →
      reply ≠ EmptyString →
      l_console (launch_assistant agent txt ob)
      = [Thinking; ClearIndicator;
         Printed (TypeError
                    "pprint() got an unexpected keyword argument 'end'")]
      ∧ l_raised (launch_assistant agent txt ob) = None.
Proof.
  split.
  - unfold launch_assistant. destruct agent as [ag|]; [|constructor].
    destruct ob as [b|]; [|constructor].
    destruct (future_result _ _) as [waited [[|ch reply]|e]].
    + repeat constructor.
    + repeat constructor.
    + destruct (is_Exception e); repeat constructor.
  - intros ag b reply -> -> Hle Hans Hne.
    unfold launch_assistant, future_result.
    rewrite (proj2 (Z.leb_le _ _) Hle), Hans.
    by destruct reply.
Qed.

Lemma suggestion_never_shown_witness :
  l_console (launch_assistant (Some quick_agent) "hello world"
               (Some hello_world))
  = [Thinking; ClearIndicator;
     Printed (TypeError "pprint() got an unexpected keyword argument 'end'")].
Proof.
  apply (suggestion_never_shown (Some quick_agent) "hello world"
           (Some hello_world) : _ ∧ _) with quick_agent hello_world
           "maybe add a subject";
    [reflexivity | reflexivity | vm_compute; discriminate | reflexivity
    | discriminate].
Defined.

(** X19.  When its sleep is over the timer callback does nothing at all
    without an agent or on an empty buffer; otherwise it asks the
    advisor once, about the text for which the timer was started, not
    about the text the buffer holds by then. *)
Theorem timer_callback_asks (agent : option Agent) txt b :
  (present agent && truthy (text b) = false →
     after_pause agent txt (Some b) = nothing_done (Some b))
  ∧ (present agent && truthy (text b) = true →
     l_asked (after_pause agent txt (Some b)) = [txt]
     ∧ head (l_console (after_pause agent txt (Some b))) = Some Thinking).
Proof.
  unfold after_pause, launch_assistant.
  destruct agent as [ag|]; cbn [present andb].
  - destruct (truthy (text b)); split; try done. intros _.
    destruct (future_result _ _) as [waited [reply|e]];
      [by destruct (truthy reply && _)|].
    destruct (is_Exception e) eqn:He; cbn; by rewrite ?He.
  - split; [|done]. intros _. by destruct (truthy (text b)).
Qed.

Lemma timer_callback_asks_witness :
  after_pause (Some quick_agent) "hello world" (Some (mkBuffer EmptyString 0))
  = nothing_done (Some (mkBuffer EmptyString 0))
  ∧ l_asked (after_pause (Some quick_agent) "hello world" (Some hello))
    = ["hello world"].
Proof.
  split.
  - apply (timer_callback_asks (Some quick_agent) "hello world"
             (mkBuffer EmptyString 0)). reflexivity.
  - apply (timer_callback_asks (Some quick_agent) "hello world" hello).
    reflexivity.
Defined.

End Display.
